(** * serverless-plugin-datadog: handler classification, layer merging and
    environment defaults

    A shallow embedding of [src/util.ts], [src/layer.ts] and [src/env.ts].

    Conventions of the embedding.
    - Objects that the code mutates or shares by reference (function
      definitions, layer arrays) live in a [store]; the code's variables
      hold locations.  Two handler records may name the same function
      definition and two function definitions may share one layer array.
    - Plain objects used as string-keyed tables ([runtimeLookup], the
      [LayerJSON] tables) are finite maps of their own properties; an
      optional or [undefined]-valued entry is an [option].  The operator
      [in] and a property read [o[k]] go on from the own properties to
      [Object.prototype], given by [Object_prototype].  What a read gives
      on one of the library objects found there is a parameter,
      [library_get]; such a read may throw, so [applyLayers] ends in a
      [completion].
    - [provider.environment] is read and written under five fixed names,
      none of them a property of [Object.prototype]; [env_get] reads its
      own properties.
    - [Object.entries(service.functions)] is the list [functions], in
      enumeration order.
    - [fs.existsSync] reads a file system given as a predicate on paths. *)

From Stdlib Require Import String Ascii.
From stdpp Require Import gmap strings list fin_maps functions.

Local Open Scope string_scope.
Local Open Scope list_scope.
Local Open Scope nat_scope.
Local Open Scope stdpp_scope.

Definition loc := nat.

(** ** JavaScript values *)

(** The values the code meets.  Numbers are kept as integer literals.
    [VObject] is an object of the language's library, under the name the
    standard gives it (["Object"], ["Object.prototype.toString"]); two of
    them are the same object when they have the same name.  Equality is
    [===], which on these values is also the [SameValueZero] of [Set]. *)
Inductive value :=
  | VUndefined
  | VNull
  | VBoolean (b : bool)
  | VNumber (n : Z)
  | VString (s : string)
  | VObject (o : string).

#[global] Instance value_eq_dec : EqDecision value.
Proof. solve_decision. Defined.

#[global] Instance value_countable : Countable value.
Proof.
  refine (inj_countable'
    (λ v, match v with
          | VUndefined => inl (inl ())
          | VNull => inl (inr ())
          | VBoolean b => inr (inl b)
          | VNumber n => inr (inr (inl n))
          | VString s => inr (inr (inr (inl s)))
          | VObject o => inr (inr (inr (inr o)))
          end)
    (λ x, match x with
          | inl (inl ()) => VUndefined
          | inl (inr ()) => VNull
          | inr (inl b) => VBoolean b
          | inr (inr (inl n)) => VNumber n
          | inr (inr (inr (inl s))) => VString s
          | inr (inr (inr (inr o))) => VObject o
          end) _).
  by intros [].
Defined.

(** The properties that an object literal, or an object made by
    [JSON.parse] or by loading a JSON module, inherits from
    [Object.prototype]: under each name, the library object that a read
    gives.  The accessor [__proto__] gives the prototype itself.  These
    twelve are the string-named properties of [Object.prototype] in
    ECMAScript 2015 to 2019 with Annex B, and in Node 8 to 12. *)
Definition Object_prototype : gmap string string :=
  list_to_map [
    ("constructor", "Object");
    ("__defineGetter__", "Object.prototype.__defineGetter__");
    ("__defineSetter__", "Object.prototype.__defineSetter__");
    ("hasOwnProperty", "Object.prototype.hasOwnProperty");
    ("__lookupGetter__", "Object.prototype.__lookupGetter__");
    ("__lookupSetter__", "Object.prototype.__lookupSetter__");
    ("isPrototypeOf", "Object.prototype.isPrototypeOf");
    ("propertyIsEnumerable", "Object.prototype.propertyIsEnumerable");
    ("toString", "Object.prototype.toString");
    ("valueOf", "Object.prototype.valueOf");
    ("__proto__", "Object.prototype");
    ("toLocaleString", "Object.prototype.toLocaleString")
  ].

(** [k in o], for a plain object [o] with the own properties [own]. *)
Definition has_property {V} (own : gmap string V) (k : string) : bool :=
  bool_decide (is_Some (own !! k)) || bool_decide (is_Some (Object_prototype !! k)).

(** What [o[k]] gives when the plain object [o] has no own property [k]. *)
Definition inherited (k : string) : value :=
  match Object_prototype !! k with
  | Some o => VObject o
  | None => VUndefined
  end.

(** ** src/layer.ts: data *)

Inductive RuntimeType := NODE | NODE_TS | NODE_ES6 | PYTHON | UNSUPPORTED.

#[global] Instance RuntimeType_eq_dec : EqDecision RuntimeType.
Proof. solve_decision. Defined.

(** The members of a TypeScript [enum] are the numbers 0, 1, ... *)
Definition RuntimeType_value (t : RuntimeType) : value :=
  VNumber
    match t with
    | NODE => 0
    | NODE_TS => 1
    | NODE_ES6 => 2
    | PYTHON => 3
    | UNSUPPORTED => 4
    end.
Coercion RuntimeType_value : RuntimeType >-> value.

(** serverless' [FunctionDefinition], with the fields the plugin reads or
    writes; [layers] holds a reference to an array. *)
Record FunctionDefinition := {
  fd_handler : string;
  fd_runtime : option string;
  fd_layers : option loc;
}.

(** [type] is declared a [RuntimeType]; [findHandlers] stores in it what
    [runtimeLookup[runtime]] gives, which for an inherited property is a
    library object. *)
Record HandlerInfo := {
  name : string;
  type : value;
  handler : loc;
  runtime : option string;
}.

Record LayerJSON := {
  regions : gmap string (option (gmap string (option string)));
}.

(** What [layers.regions[region]] holds when it is not [undefined]: a table
    of the file, or a library object inherited under the region's name. *)
Inductive RegionRuntimes :=
  | Table (table : gmap string (option string))
  | LibraryObject (o : string).

Record Provider := {
  environment : option (gmap string value);
}.

Record Service := {
  functions : list (string * loc);
  plugins : option (list string);
  provider : Provider;
}.

(** The objects reachable from the service: function definitions by
    identity, arrays by identity, and the next unused array identity.  The
    arrays are declared [string[]]; [applyLayers] pushes what the region's
    table gives, which for an inherited property is not a string. *)
Record store := {
  descriptors : loc → FunctionDefinition;
  arrays : loc → list value;
  next : loc;
}.

Definition runtimeLookup : gmap string RuntimeType :=
  list_to_map [
    ("nodejs10.x", NODE);
    ("nodejs12.x", NODE);
    ("nodejs8.10", NODE);
    ("python2.7", PYTHON);
    ("python3.6", PYTHON);
    ("python3.7", PYTHON);
    ("python3.8", PYTHON)
  ].

(** [runtimeLookup[runtime]]. *)
Definition runtimeLookup_get (runtime : string) : value :=
  match runtimeLookup !! runtime with
  | Some t => RuntimeType_value t
  | None => inherited runtime
  end.

(** ** src/util.ts *)

Module Util.

(** [s.split(sep)] for a one-character separator. *)
Fixpoint split (sep : ascii) (s : string) : list string :=
  match s with
  | EmptyString => [EmptyString]
  | String c rest =>
      if Ascii.eqb c sep then EmptyString :: split sep rest
      else match split sep rest with
           | [] => [String c EmptyString]
           | part :: parts => String c part :: parts
           end
  end.

(** [parts.join(sep)]. *)
Definition join (sep : string) (parts : list string) : string :=
  String.concat sep parts.

Record HandlerPath := { method : string; filename : string }.

Definition getHandlerPath (σ : store) (handlerInfo : HandlerInfo)
  : option HandlerPath :=
  let handlerfile := fd_handler (descriptors σ (handler handlerInfo)) in
  let parts := split "." handlerfile in
  if (length parts <? 2)%nat then None
  else
    let method := List.last parts "" in
    let filename := join "." (List.removelast parts) in
    Some {| method := method; filename := filename |}.

(** *** removeDirectory

    Node's [fs] is a parameter: a state of the file system and the five
    promisified calls the function awaits, a rejected promise being
    [None].  [fs.exists] never rejects.  The function has no bound on its
    recursion, so the embedding takes fuel. *)

(** The calls that change the file system, with their argument. *)
Inductive call := Unlink (path : string) | Rmdir (path : string).

(** How the returned promise settles, and the file system it leaves. *)
Inductive outcome (world : Type) :=
  | Resolved (w : world)
  | Rejected (w : world)
  | OutOfFuel (w : world).
Arguments Resolved {world} w.
Arguments Rejected {world} w.
Arguments OutOfFuel {world} w.

Section RemoveDirectory.
Variable world : Type.
Variable exists_ : string → world → bool.
Variable readdir : string → world → option (list string).
(** [(await lstat(p)).isDirectory()]. *)
Variable lstat_isDirectory : string → world → option bool.
Variable unlink : string → world → option world.
Variable rmdir : string → world → option world.

(** The [for (const file of files)] loop; [recurse] is [removeDirectory]. *)
Fixpoint removeDirectory_files
    (recurse : string → world → list call * outcome world)
    (path : string) (files : list string) (w : world)
  : list call * outcome world :=
  match files with
  | [] => ([], Resolved w)
  | file :: files =>
      let curPath := path +:+ "/" +:+ file in
      match lstat_isDirectory curPath w with
      | None => ([], Rejected w)
      | Some isDirectory =>
          let '(calls, o) :=
            if isDirectory then recurse curPath w
            else
              match unlink curPath w with
              | Some w' => ([Unlink curPath], Resolved w')
              | None => ([Unlink curPath], Rejected w)
              end in
          match o with
          | Resolved w' =>
              let '(calls', o') := removeDirectory_files recurse path files w' in
              (calls ++ calls', o')
          | _ => (calls, o)
          end
      end
  end.

(** The calls made, in order, and the outcome. *)
Fixpoint removeDirectory (fuel : nat) (path : string) (w : world)
  : list call * outcome world :=
  match fuel with
  | 0 => ([], OutOfFuel w)
  | S fuel =>
      let dirExists := exists_ path w in
      if dirExists then
        match readdir path w with
        | None => ([], Rejected w)
        | Some files =>
            let '(calls, o) :=
              removeDirectory_files (removeDirectory fuel) path files w in
            match o with
            | Resolved w' =>
                match rmdir path w' with
                | Some w'' => (calls ++ [Rmdir path], Resolved w'')
                | None => (calls ++ [Rmdir path], Rejected w')
                end
            | _ => (calls, o)
            end
        end
      else ([], Resolved w)
  end.
End RemoveDirectory.

End Util.

(** ** src/layer.ts: findHandlers *)

Definition hasWebpackPlugin (service : Service) : bool :=
  match plugins service with
  | None => false
  | Some plugins =>
      bool_decide
        (is_Some (List.find (λ plugin, String.eqb plugin "serverless-webpack") plugins))
  end.

Definition set_type (t : RuntimeType) (h : HandlerInfo) : HandlerInfo :=
  {| name := name h; type := t; handler := handler h; runtime := runtime h |}.

Section FindHandlers.
(** [fs.existsSync]. *)
Variable existsSync : string → bool.
Variable σ : store.

(** The callback given to [map]; [None] is the bare [return]. *)
Definition findHandlers_entry (service : Service)
    (defaultRuntime : option string) (defaultNodeRuntime : option RuntimeType)
    (entry : string * loc) : option HandlerInfo :=
  let '(name, handler) := entry in
  let runtime :=
    match fd_runtime (descriptors σ handler) with
    | None => defaultRuntime
    | Some r => Some r
    end in
  let unsupported :=
    Some {| type := UNSUPPORTED; runtime := runtime; name := name; handler := handler |} in
  match runtime with
  | None => unsupported
  | Some r =>
      if has_property runtimeLookup r then
        let handlerInfo :=
          {| type := runtimeLookup_get r; runtime := Some r;
             name := name; handler := handler |} in
        if decide (type handlerInfo = NODE) then
          match Util.getHandlerPath σ handlerInfo with
          | None => None
          | Some handlerPath =>
              match defaultNodeRuntime with
              | None =>
                  let handlerInfo :=
                    if existsSync ("./" +:+ Util.filename handlerPath +:+ ".es.js")
                       || existsSync ("./" +:+ Util.filename handlerPath +:+ ".mjs")
                       || hasWebpackPlugin service
                    then set_type NODE_ES6 handlerInfo else handlerInfo in
                  let handlerInfo :=
                    if existsSync ("./" +:+ Util.filename handlerPath +:+ ".ts")
                    then set_type NODE_TS handlerInfo else handlerInfo in
                  Some handlerInfo
              | Some t => Some (set_type t handlerInfo)
              end
          end
        else Some handlerInfo
      else unsupported
  end.

(** [.map(...).filter(result => result !== undefined)]. *)
Definition findHandlers (service : Service)
    (defaultRuntime : option string) (defaultNodeRuntime : option RuntimeType)
  : list HandlerInfo :=
  omap (findHandlers_entry service defaultRuntime defaultNodeRuntime)
       (functions service).
End FindHandlers.

(** ** src/layer.ts: applyLayers *)

(** The array literal [[]]: a new array, distinct from every allocated one. *)
Definition alloc (σ : store) : loc * store :=
  (next σ,
   {| descriptors := descriptors σ;
      arrays := <[next σ := []]> (arrays σ);
      next := S (next σ) |}).

(** [array.push(x)]. *)
Definition push (array : loc) (x : value) (σ : store) : store :=
  {| descriptors := descriptors σ;
     arrays := <[array := (arrays σ array ++ [x])%list]> (arrays σ);
     next := next σ |}.

Definition getLayers (info : HandlerInfo) (σ : store) : loc * store :=
  match fd_layers (descriptors σ (handler info)) with
  | None => alloc σ
  | Some layersList => (layersList, σ)
  end.

Definition set_fd_layers (layers : loc) (fd : FunctionDefinition) : FunctionDefinition :=
  {| fd_handler := fd_handler fd; fd_runtime := fd_runtime fd; fd_layers := Some layers |}.

Definition setLayers (info : HandlerInfo) (layers : loc) (σ : store) : store :=
  {| descriptors :=
       <[handler info := set_fd_layers layers (descriptors σ (handler info))]>
         (descriptors σ);
     arrays := arrays σ;
     next := next σ |}.

(** [new Set(array).has(x)]. *)
Definition Set_has (σ : store) (array : loc) (x : value) : bool :=
  bool_decide (x ∈ (list_to_set (arrays σ array) : gset value)).

(** [layers.regions[region]]; [None] is [undefined]. *)
Definition regions_get (layers : LayerJSON) (region : string) : option RegionRuntimes :=
  match regions layers !! region with
  | Some own => Table <$> own
  | None => LibraryObject <$> Object_prototype !! region
  end.

(** How a call ends, by returning or by an exception passing through it,
    and the objects as it leaves them. *)
Inductive completion :=
  | Returns (σ : store)
  | Throws (σ : store).

(** Two steps in sequence: the second runs if the first returns. *)
Definition and_then (c : completion) (k : store → completion) : completion :=
  match c with
  | Returns σ => k σ
  | Throws σ => Throws σ
  end.

Section ApplyLayers.
(** [o[k]] for a library object [o]; [None] when the read throws, as the
    accessors [caller] and [arguments] of a library function do. *)
Variable library_get : string → string → option value.

(** [regionRuntimes[runtime]]; [None] when the read throws. *)
Definition regionRuntimes_get (regionRuntimes : RegionRuntimes) (runtime : string)
  : option value :=
  match regionRuntimes with
  | Table table =>
      Some match table !! runtime with
           | Some (Some layerARN) => VString layerARN
           | Some None => VUndefined
           | None => inherited runtime
           end
  | LibraryObject o => library_get o runtime
  end.

(** One iteration of the [for (const handler of handlers)] loop; the loop
    variable is [info] here, [handler] being the record's field. *)
Definition applyLayers_iter (regionRuntimes : RegionRuntimes)
    (σ : store) (info : HandlerInfo) : completion :=
  if decide (type info = UNSUPPORTED) then Returns σ
  else
    let layerARN :=
      match runtime info with
      | Some runtime => regionRuntimes_get regionRuntimes runtime
      | None => Some VUndefined
      end in
    match layerARN with
    | None => Throws σ
    | Some layerARN =>
        if decide (layerARN ≠ VUndefined) then
          let '(currentLayers, σ) := getLayers info σ in
          let σ :=
            if negb (Set_has σ currentLayers layerARN)
            then push currentLayers layerARN σ else σ in
          Returns (setLayers info currentLayers σ)
        else Returns σ
    end.

(** The [for] loop. *)
Fixpoint applyLayers_loop (regionRuntimes : RegionRuntimes)
    (σ : store) (handlers : list HandlerInfo) : completion :=
  match handlers with
  | [] => Returns σ
  | info :: handlers =>
      and_then (applyLayers_iter regionRuntimes σ info)
        (λ σ, applyLayers_loop regionRuntimes σ handlers)
  end.

Definition applyLayers (region : string) (handlers : list HandlerInfo)
    (layers : LayerJSON) (σ : store) : completion :=
  match regions_get layers region with
  | None => Returns σ
  | Some regionRuntimes => applyLayers_loop regionRuntimes σ handlers
  end.
End ApplyLayers.

(** ** src/env.ts *)

Inductive NodeModuleType := es6 | node | typescript.

Record Configuration := {
  addLayers : bool;
  apiKey : option string;
  apiKMSKey : option string;
  site : string;
  logLevel : string;
  flushMetricsToLogs : bool;
  nodeModuleType : option NodeModuleType;
}.

Definition apiKeyEnvVar := "DD_API_KEY".
Definition apiKeyKMSEnvVar := "DD_KMS_API_KEY".
Definition siteURLEnvVar := "DD_SITE".
Definition logLevelEnvVar := "DD_LOG_LEVEL".
Definition logForwardingEnvVar := "DD_FLUSH_TO_LOG".

Definition envVars : list string :=
  [apiKeyEnvVar; apiKeyKMSEnvVar; siteURLEnvVar; logLevelEnvVar; logForwardingEnvVar].

(** [environment[k]]: a missing key reads as [undefined]. *)
Definition env_get (environment : gmap string value) (k : string) : value :=
  default VUndefined (environment !! k).

(** [if (environment[k] === undefined) { environment[k] = v; }]. *)
Definition set_if_undefined (k : string) (v : value)
    (environment : gmap string value) : gmap string value :=
  if decide (env_get environment k = VUndefined) then <[k := v]> environment
  else environment.

Definition setEnvConfiguration (config : Configuration) (service : Service) : Service :=
  let environment :=
    match environment (provider service) with
    | None => ∅
    | Some environment => environment
    end in
  let environment :=
    match apiKey config with
    | Some apiKey => set_if_undefined apiKeyEnvVar (VString apiKey) environment
    | None => environment
    end in
  let environment :=
    match apiKMSKey config with
    | Some apiKMSKey => set_if_undefined apiKeyKMSEnvVar (VString apiKMSKey) environment
    | None => environment
    end in
  let environment := set_if_undefined siteURLEnvVar (VString (site config)) environment in
  let environment := set_if_undefined logLevelEnvVar (VString (logLevel config)) environment in
  let environment :=
    set_if_undefined logForwardingEnvVar (VBoolean (flushMetricsToLogs config)) environment in
  {| functions := functions service;
     plugins := plugins service;
     provider := {| environment := Some environment |} |}.

Definition defaultConfiguration : Configuration :=
  {| addLayers := true; apiKey := None; apiKMSKey := None;
     site := "datadoghq.com"; logLevel := "info";
     flushMetricsToLogs := false; nodeModuleType := None |}.

(** [Partial<Configuration>], the type [getConfig] gives [custom.datadog].
    A property may be missing ([None]), or be there with the value
    [undefined] ([Some None]) or with a value of its type. *)
Record PartialConfiguration := {
  p_addLayers : option (option bool);
  p_apiKey : option (option string);
  p_apiKMSKey : option (option string);
  p_site : option (option string);
  p_logLevel : option (option string);
  p_flushMetricsToLogs : option (option bool);
  p_nodeModuleType : option (option NodeModuleType);
}.

(** [service.custom], with the property [getConfig] reads. *)
Record Custom := {
  datadog : option PartialConfiguration;
}.

(** The object the spread makes.  It is declared a [Configuration]; each
    property reads as the value copied last, which is [undefined] ([None])
    when that is what the second operand holds. *)
Record SpreadConfiguration := {
  s_addLayers : option bool;
  s_apiKey : option string;
  s_apiKMSKey : option string;
  s_site : option string;
  s_logLevel : option string;
  s_flushMetricsToLogs : option bool;
  s_nodeModuleType : option NodeModuleType;
}.

(** The object spread [{ ...a, ...b }], property by property: a property
    that [b] has, whatever its value, replaces the one of [a]. *)
Definition spread (a : Configuration) (b : PartialConfiguration) : SpreadConfiguration :=
  {| s_addLayers := default (Some (addLayers a)) (p_addLayers b);
     s_apiKey := default (apiKey a) (p_apiKey b);
     s_apiKMSKey := default (apiKMSKey a) (p_apiKMSKey b);
     s_site := default (Some (site a)) (p_site b);
     s_logLevel := default (Some (logLevel a)) (p_logLevel b);
     s_flushMetricsToLogs := default (Some (flushMetricsToLogs a)) (p_flushMetricsToLogs b);
     s_nodeModuleType := default (nodeModuleType a) (p_nodeModuleType b) |}.

(** [getConfig(service)], of [service.custom]. *)
Definition getConfig (custom : option Custom) : SpreadConfiguration :=
  let custom :=
    match custom with
    | None => {| datadog := None |}
    | Some custom => custom
    end in
  let datadog :=
    match datadog custom with
    | None =>
        {| p_addLayers := None; p_apiKey := None; p_apiKMSKey := None;
           p_site := None; p_logLevel := None; p_flushMetricsToLogs := None;
           p_nodeModuleType := None |}
    | Some datadog => datadog
    end in
  spread defaultConfiguration datadog.

(** ** Vocabulary of the statements *)

(** The objects as a call leaves them, however it ends. *)
Definition store_of (c : completion) : store :=
  match c with
  | Returns σ => σ
  | Throws σ => σ
  end.

(** The layer list of a function definition, if the field is present. *)
Definition layersOf (σ : store) (d : loc) : option (list value) :=
  arrays σ <$> fd_layers (descriptors σ d).

(** Every array reference held by a function definition is allocated, so
    that the next array literal is a new array. *)
Definition store_wf (σ : store) : Prop :=
  ∀ d a, fd_layers (descriptors σ d) = Some a → a < next σ.

(** The handler reference contains a dot. *)
Fixpoint has_dot (s : string) : bool :=
  match s with
  | EmptyString => false
  | String c rest => Ascii.eqb c "." || has_dot rest
  end.

(** The service with another collection of declared functions. *)
Definition with_functions (service : Service) (fs : list (string * loc)) : Service :=
  {| functions := fs; plugins := plugins service; provider := provider service |}.

(** Step 1 of the classifier: the declared runtime, else the default. *)
Definition effective_runtime (σ : store) (d : loc) (defaultRuntime : option string)
  : option string :=
  match fd_runtime (descriptors σ d) with
  | Some r => Some r
  | None => defaultRuntime
  end.

(** An entry of a table of the file: the own property [k], when there is
    one and its value is not [undefined]. *)
Definition own_entry {V} (o : gmap string (option V)) (k : string) : option V :=
  o !! k ≫= id.

(** The type [findHandlers] gives a record before it looks at the handler
    reference: [UNSUPPORTED] without a runtime name or for a name that
    [runtimeLookup] neither has nor inherits, else what
    [runtimeLookup[runtime]] reads. *)
Definition category_of (runtime : option string) : value :=
  match runtime with
  | None => UNSUPPORTED
  | Some r => if has_property runtimeLookup r then runtimeLookup_get r else UNSUPPORTED
  end.

Section Vocabulary.
Variable library_get : string → string → option value.

(** Step 2a-2b of the merger: the layer an iteration has to merge for a
    record, when the read of line 104 returns something other than
    [undefined]. *)
Definition resolve (regionRuntimes : RegionRuntimes) (info : HandlerInfo)
  : option value :=
  match runtime info with
  | Some runtime =>
      match regionRuntimes_get library_get regionRuntimes runtime with
      | Some layerARN => if decide (layerARN ≠ VUndefined) then Some layerARN else None
      | None => None
      end
  | None => None
  end.

(** The read of line 104 throws for this record. *)
Definition throws (regionRuntimes : RegionRuntimes) (info : HandlerInfo) : bool :=
  bool_decide (type info ≠ UNSUPPORTED)
  && match runtime info with
     | Some runtime =>
         bool_decide (regionRuntimes_get library_get regionRuntimes runtime = None)
     | None => false
     end.

(** The records whose iteration runs to its end: those before the first
    one that throws. *)
Fixpoint executed (regionRuntimes : RegionRuntimes) (handlers : list HandlerInfo)
  : list HandlerInfo :=
  match handlers with
  | [] => []
  | info :: handlers =>
      if throws regionRuntimes info then []
      else info :: executed regionRuntimes handlers
  end.

(** The objects after one iteration. *)
Definition step (regionRuntimes : RegionRuntimes) (σ : store) (info : HandlerInfo)
  : store :=
  store_of (applyLayers_iter library_get regionRuntimes σ info).

(** A record on which an iteration has nothing left to do. *)
Definition settled (regionRuntimes : RegionRuntimes) (σ : store)
    (info : HandlerInfo) : Prop :=
  type info = UNSUPPORTED
  ∨ resolve regionRuntimes info = None
  ∨ ∃ arn a, resolve regionRuntimes info = Some arn
             ∧ fd_layers (descriptors σ (handler info)) = Some a
             ∧ arn ∈ arrays σ a.

(** A record for which the pass has a layer to merge. *)
Definition merged (regionRuntimes : RegionRuntimes) (info : HandlerInfo)
  : Prop :=
  type info ≠ UNSUPPORTED ∧ is_Some (resolve regionRuntimes info).
End Vocabulary.

(** The record is about function definition [d], or about one that shares
    its layer array. *)
Definition touches (σ : store) (info : HandlerInfo) (d : loc) : Prop :=
  handler info = d
  ∨ ∃ a, fd_layers (descriptors σ d) = Some a
         ∧ fd_layers (descriptors σ (handler info)) = Some a.

(** Two stores that hold the same objects. *)
Definition store_eq (σ1 σ2 : store) : Prop :=
  (∀ d, descriptors σ1 d = descriptors σ2 d)
  ∧ (∀ a, arrays σ1 a = arrays σ2 a)
  ∧ next σ1 = next σ2.

(** The path a call is about. *)
Definition call_path (c : Util.call) : string :=
  match c with
  | Util.Unlink path => path
  | Util.Rmdir path => path
  end.

(** [p] names something inside directory [path]. *)
Definition inside (path p : string) : Prop :=
  ∃ rest, p = path +:+ "/" +:+ rest.

(** The dialects the type of [defaultNodeRuntime] admits. *)
Definition node_dialect (t : value) : Prop :=
  t = NODE ∨ t = NODE_TS ∨ t = NODE_ES6.

(** The service with another plugin list. *)
Definition with_plugins (service : Service) (ps : option (list string)) : Service :=
  {| functions := functions service; plugins := ps; provider := provider service |}.

(** The environment of the provider, an undefined one being empty. *)
Definition env_of (service : Service) : gmap string value :=
  default ∅ (environment (provider service)).

(** The value a guarded assignment [if (old === undefined) { ... = v }]
    leaves. *)
Definition filled (v old : value) : value :=
  if decide (old = VUndefined) then v else old.

(** The five guarded assignments of [setEnvConfiguration], on the
    environment object. *)
Definition fill_defaults (config : Configuration) (environment : gmap string value)
  : gmap string value :=
  let e1 :=
    match apiKey config with
    | Some apiKey => set_if_undefined apiKeyEnvVar (VString apiKey) environment
    | None => environment
    end in
  let e2 :=
    match apiKMSKey config with
    | Some apiKMSKey => set_if_undefined apiKeyKMSEnvVar (VString apiKMSKey) e1
    | None => e1
    end in
  set_if_undefined logForwardingEnvVar (VBoolean (flushMetricsToLogs config))
    (set_if_undefined logLevelEnvVar (VString (logLevel config))
       (set_if_undefined siteURLEnvVar (VString (site config)) e2)).

(** The property of [custom.datadog] that the spread copies, if it has the
    property: [Some None] is a property held as [undefined]. *)
Definition given {A} (custom : option Custom)
    (field : PartialConfiguration → option (option A)) : option (option A) :=
  mbind field (mbind datadog custom).

(** The object [getConfig] returns, as the [Configuration] it is declared
    to be: defined when the four required properties are. *)
Definition as_Configuration (c : SpreadConfiguration) : option Configuration :=
  match s_addLayers c, s_site c, s_logLevel c, s_flushMetricsToLogs c with
  | Some addLayers, Some site, Some logLevel, Some flushMetricsToLogs =>
      Some {| addLayers := addLayers; apiKey := s_apiKey c; apiKMSKey := s_apiKMSKey c;
              site := site; logLevel := logLevel;
              flushMetricsToLogs := flushMetricsToLogs;
              nodeModuleType := s_nodeModuleType c |}
  | _, _, _, _ => None
  end.

(** Membership in [envVars]. *)
Ltac in_envVars :=
  unfold envVars; rewrite !elem_of_cons; tauto.

(** ** Sample services, stores and tables *)

Module Tests.
Definition fd (h : string) (r : option string) (l : option loc) :=
  {| fd_handler := h; fd_runtime := r; fd_layers := l |}.

(** A store with one function definition of interest, at identity 0, and
    one array of layer names, at identity 0; the other identities hold
    blank objects. *)
Definition store1 (f : FunctionDefinition) (a : list string) : store :=
  {| descriptors := λ d, if d =? 0 then f else fd "" None None;
     arrays := λ i, if i =? 0 then VString <$> a else [];
     next := 1 |}.

Definition service1 (f : string) (plugins : option (list string)) : Service :=
  {| functions := [(f, 0)]; plugins := plugins;
     provider := {| environment := None |} |}.

Definition no_files : string → bool := λ _, false.
Definition only (path : string) : string → bool := String.eqb path.

Definition info (t : RuntimeType) (r : option string) : HandlerInfo :=
  {| name := "f"; type := t; handler := 0; runtime := r |}.

Definition table (region runtime arn : string) : LayerJSON :=
  {| regions := {[ region := Some {[ runtime := Some arn ]} ]} |}.

(** A library none of whose objects can be read.  The sample runs below
    that take it look their region up in a table of the file, so that no
    read reaches a library object. *)
Definition no_reads : string → string → option value := λ _ _, None.

(** The eight functions of the first [findHandlers] test, at identities 0-7. *)
Definition runtimes8 : list string :=
  ["nodejs8.10"; "go1.10"; "nodejs10.x"; "python2.7"; "python3.6"; "python3.7";
   "python3.8"; "nodejs12.x"].

Definition store8 : store :=
  {| descriptors := λ d, fd "myfile.handler" (runtimes8 !! d) None;
     arrays := λ _, [];
     next := 0 |}.

Definition service8 : Service :=
  {| functions :=
       [("func-a", 0); ("func-b", 1); ("func-c", 2); ("func-d", 3);
        ("func-e", 4); ("func-f", 5); ("func-g", 6); ("func-h", 7)];
     plugins := None;
     provider := {| environment := None |} |}.
End Tests.

(** A toy file system for [removeDirectory]: the directory ["dir"] holds one
    file, ["a"]; the state counts the successful calls. *)
Module ToyFs.
Definition exists_ (p : string) (w : nat) : bool := String.eqb p "dir".
Definition readdir (p : string) (w : nat) : option (list string) :=
  if String.eqb p "dir" then Some ["a"] else None.
Definition lstat_isDirectory (p : string) (w : nat) : option bool :=
  if String.eqb p "dir/a" then Some false else None.
Definition unlink (p : string) (w : nat) : option nat := Some (S w).
Definition rmdir (p : string) (w : nat) : option nat := Some (S w).
End ToyFs.

Module Inputs.
Import Tests.

(** One declared function ["f"], at identity 0. *)
Definition svc (plugins : option (list string)) : Service := service1 "f" plugins.

Definition go := store1 (fd "myfile.handler" (Some "go1.10") None) [].
Definition node_nodot := store1 (fd "handler" (Some "nodejs10.x") None) [].
Definition python_nodot := store1 (fd "handler" (Some "python3.8") None) [].
Definition node_lambda := store1 (fd "mylambda.handler" (Some "nodejs8.10") None) [].

(** A function whose runtime name is a property of [Object.prototype]. *)
Definition constructor_runtime :=
  store1 (fd "myfile.handler" (Some "constructor") None) [].

Definition es_and_ts (path : string) : bool :=
  String.eqb path "./mylambda.es.js" || String.eqb path "./mylambda.ts".

Definition mylambda : Util.HandlerPath :=
  {| Util.method := "handler"; Util.filename := "mylambda" |}.

Definition node10 : HandlerInfo := info NODE (Some "nodejs10.x").
Definition with_layers (l : list string) : store :=
  store1 (fd "myfile.handler" (Some "nodejs10.x") (Some 0)) l.
Definition without_layers : store :=
  store1 (fd "myfile.handler" (Some "nodejs10.x") None) [].

(** Two function definitions, at identities 0 and 1, that share the layer
    array at identity 0 (one YAML anchor used by both). *)
Definition shared_array : store :=
  {| descriptors := λ d,
       if d =? 0 then fd "a.handler" (Some "nodejs10.x") (Some 0)
       else if d =? 1 then fd "b.handler" (Some "go1.10") (Some 0)
       else fd "" None None;
     arrays := λ i, if i =? 0 then [VString "node:1"] else [];
     next := 1 |}.

(** Records for the two functions of [shared_array], and for a third one,
    at identity 2, that has no layers. *)
Definition record_a : HandlerInfo :=
  {| name := "a"; type := NODE; handler := 0; runtime := Some "nodejs10.x" |}.
Definition record_b : HandlerInfo :=
  {| name := "b"; type := UNSUPPORTED; handler := 1; runtime := Some "go1.10" |}.
Definition record_c : HandlerInfo :=
  {| name := "c"; type := NODE; handler := 2; runtime := Some "nodejs10.x" |}.

Definition env1 : gmap string value :=
  {[ "DD_SITE" := VString "datadoghq.eu"; "STAGE" := VString "dev" ]}.
Definition svc_env : Service :=
  {| functions := []; plugins := None; provider := {| environment := Some env1 |} |}.

(** [custom: { datadog: { site: "datadoghq.eu" } }]. *)
Definition custom_eu : Custom :=
  {| datadog :=
       Some {| p_addLayers := None; p_apiKey := None; p_apiKMSKey := None;
               p_site := Some (Some "datadoghq.eu"); p_logLevel := None;
               p_flushMetricsToLogs := None; p_nodeModuleType := None |} |}.

(** [custom: { datadog: { site: undefined } }]. *)
Definition custom_undefined_site : Custom :=
  {| datadog :=
       Some {| p_addLayers := None; p_apiKey := None; p_apiKMSKey := None;
               p_site := Some None; p_logLevel := None;
               p_flushMetricsToLogs := None; p_nodeModuleType := None |} |}.
End Inputs.

(** ** The repository's tests, replayed on the embedding *)

Example split_ex1 : Util.split "." "src/my.file.handler" = ["src/my"; "file"; "handler"].
Proof. reflexivity. Qed.
Example split_ex2 : Util.split "." "" = [""].
Proof. reflexivity. Qed.
Example split_ex3 : Util.split "." "a..b." = ["a"; ""; "b"; ""].
Proof. reflexivity. Qed.
Example getHandlerPath_ex1 :
  Util.getHandlerPath (Tests.store1 (Tests.fd "src/my.file.handler" None None) [])
    (Tests.info NODE None)
  = Some {| Util.method := "handler"; Util.filename := "src/my.file" |}.
Proof. reflexivity. Qed.
Example getHandlerPath_ex2 :
  Util.getHandlerPath (Tests.store1 (Tests.fd "handler" None None) []) (Tests.info NODE None)
  = None.
Proof. reflexivity. Qed.

Example test_finds_all_node_and_python :
  findHandlers Tests.no_files Tests.store8 Tests.service8 None None
  = [ {| name := "func-a"; type := NODE; handler := 0; runtime := Some "nodejs8.10" |};
      {| name := "func-b"; type := UNSUPPORTED; handler := 1; runtime := Some "go1.10" |};
      {| name := "func-c"; type := NODE; handler := 2; runtime := Some "nodejs10.x" |};
      {| name := "func-d"; type := PYTHON; handler := 3; runtime := Some "python2.7" |};
      {| name := "func-e"; type := PYTHON; handler := 4; runtime := Some "python3.6" |};
      {| name := "func-f"; type := PYTHON; handler := 5; runtime := Some "python3.7" |};
      {| name := "func-g"; type := PYTHON; handler := 6; runtime := Some "python3.8" |};
      {| name := "func-h"; type := NODE; handler := 7; runtime := Some "nodejs12.x" |} ].
Proof. reflexivity. Qed.

Example test_uses_es6_es_js :
  findHandlers (Tests.only "./mylambda.es.js")
    (Tests.store1 (Tests.fd "mylambda.handler" (Some "nodejs8.10") None) [])
    (Tests.service1 "func-a" None) (Some "nodejs8.10") None
  = [{| name := "func-a"; type := NODE_ES6; handler := 0; runtime := Some "nodejs8.10" |}].
Proof. reflexivity. Qed.

Example test_uses_default_node_runtime :
  findHandlers (Tests.only "./mylambda.js")
    (Tests.store1 (Tests.fd "mylambda.handler" (Some "nodejs8.10") None) [])
    (Tests.service1 "func-a" None) (Some "nodejs8.10") (Some NODE_TS)
  = [{| name := "func-a"; type := NODE_TS; handler := 0; runtime := Some "nodejs8.10" |}].
Proof. reflexivity. Qed.

Example test_uses_global_runtime :
  findHandlers Tests.no_files (Tests.store1 (Tests.fd "myfile.handler" None None) [])
    (Tests.service1 "func-a" None) (Some "nodejs8.10") None
  = [{| name := "func-a"; type := NODE; handler := 0; runtime := Some "nodejs8.10" |}].
Proof. reflexivity. Qed.

Example test_unsupported_go :
  findHandlers Tests.no_files (Tests.store1 (Tests.fd "myfile.handler" (Some "go1.10") None) [])
    (Tests.service1 "func-b" None) None None
  = [{| name := "func-b"; type := UNSUPPORTED; handler := 0; runtime := Some "go1.10" |}].
Proof. reflexivity. Qed.

Example test_uses_typescript :
  findHandlers (Tests.only "./mylambda.ts")
    (Tests.store1 (Tests.fd "mylambda.handler" (Some "nodejs8.10") None) [])
    (Tests.service1 "func-a" None) (Some "nodejs8.10") None
  = [{| name := "func-a"; type := NODE_TS; handler := 0; runtime := Some "nodejs8.10" |}].
Proof. reflexivity. Qed.

Example test_uses_es6_mjs :
  findHandlers (Tests.only "./mylambda.mjs")
    (Tests.store1 (Tests.fd "mylambda.handler" (Some "nodejs8.10") None) [])
    (Tests.service1 "func-a" None) (Some "nodejs8.10") None
  = [{| name := "func-a"; type := NODE_ES6; handler := 0; runtime := Some "nodejs8.10" |}].
Proof. reflexivity. Qed.

Example test_uses_webpack :
  findHandlers (Tests.only "./mylambda.js")
    (Tests.store1 (Tests.fd "mylambda.handler" (Some "nodejs8.10") None) [])
    (Tests.service1 "func-a" (Some ["serverless-plugin-datadog"; "serverless-webpack"]))
    (Some "nodejs8.10") None
  = [{| name := "func-a"; type := NODE_ES6; handler := 0; runtime := Some "nodejs8.10" |}].
Proof. reflexivity. Qed.

Example test_adds_layer_array library_get :
  layersOf
    (store_of
       (applyLayers library_get "us-east-1" [Tests.info NODE (Some "nodejs10.x")]
          (Tests.table "us-east-1" "nodejs10.x" "node:2")
          (Tests.store1 (Tests.fd "" (Some "nodejs10.x") None) [])))
    0
  = Some [VString "node:2"].
Proof. reflexivity. Qed.

Example test_appends_to_layer_array library_get :
  layersOf
    (store_of
       (applyLayers library_get "us-east-1" [Tests.info NODE (Some "nodejs10.x")]
          (Tests.table "us-east-1" "nodejs10.x" "node:2")
          (Tests.store1 (Tests.fd "" (Some "nodejs10.x") (Some 0)) ["node:1"])))
    0
  = Some [VString "node:1"; VString "node:2"].
Proof. reflexivity. Qed.

Example test_no_duplicate_layers library_get :
  layersOf
    (store_of
       (applyLayers library_get "us-east-1" [Tests.info NODE (Some "nodejs10.x")]
          (Tests.table "us-east-1" "nodejs10.x" "node:1")
          (Tests.store1 (Tests.fd "" (Some "nodejs10.x") (Some 0)) ["node:1"])))
    0
  = Some [VString "node:1"].
Proof. reflexivity. Qed.

Example test_unknown_runtime_key library_get :
  layersOf
    (store_of
       (applyLayers library_get "us-east-1" [Tests.info NODE (Some "nodejs10.x")]
          (Tests.table "us-east-1" "python2.7" "python:2")
          (Tests.store1 (Tests.fd "" (Some "nodejs10.x") None) [])))
    0
  = None.
Proof. reflexivity. Qed.

Example test_unsupported_runtime library_get :
  layersOf
    (store_of
       (applyLayers library_get "us-east-1" [Tests.info UNSUPPORTED None]
          (Tests.table "us-east-1" "python2.7" "python:2")
          (Tests.store1 (Tests.fd "" None None) [])))
    0
  = None.
Proof. reflexivity. Qed.

Example test_unknown_region library_get :
  layersOf
    (store_of
       (applyLayers library_get "us-east-2" [Tests.info NODE (Some "nodejs10.x")]
          (Tests.table "us-east-1" "nodejs10.x" "node:1")
          (Tests.store1 (Tests.fd "" (Some "nodejs10.x") None) [])))
    0
  = None.
Proof. reflexivity. Qed.

(** Sharing is visible: merging into the first function's array shows in
    the second function, whose own record is [UNSUPPORTED]. *)
Example shared_array_grows_for_both library_get :
  let σ :=
    store_of
      (applyLayers library_get "us-east-1" [Inputs.record_a; Inputs.record_b]
         (Tests.table "us-east-1" "nodejs10.x" "node:2") Inputs.shared_array) in
  layersOf σ 0 = Some [VString "node:1"; VString "node:2"]
  ∧ layersOf σ 1 = Some [VString "node:1"; VString "node:2"].
Proof. split; reflexivity. Qed.

(** ** Names inherited from Object.prototype, on sample inputs *)

(** [in] holds for the seven runtime names of the table and for the twelve
    inherited names. *)
Example has_property_runtimeLookup :
  has_property runtimeLookup "nodejs10.x" = true
  ∧ has_property runtimeLookup "go1.10" = false
  ∧ has_property runtimeLookup "constructor" = true
  ∧ has_property runtimeLookup "toString" = true
  ∧ has_property runtimeLookup "__proto__" = true.
Proof. repeat split; reflexivity. Qed.

(** A runtime name that the region's table inherits gives a layer: the
    library function [Object] is pushed onto the function's list. *)
Example inherited_runtime_name_is_merged library_get :
  layersOf
    (store_of
       (applyLayers library_get "us-east-1" [Tests.info NODE (Some "constructor")]
          (Tests.table "us-east-1" "nodejs10.x" "node:2")
          (Tests.store1 (Tests.fd "" (Some "constructor") None) [])))
    0
  = Some [VObject "Object"].
Proof. reflexivity. Qed.

(** A region name that [layers.regions] inherits gives a library object
    for the region's table; what the pass does then depends on what the
    object's properties read, here its [name]. *)
Example inherited_region_name_is_merged library_get :
  library_get "Object.prototype.toString" "name" = Some (VString "toString") →
  layersOf
    (store_of
       (applyLayers library_get "toString" [Tests.info NODE (Some "name")]
          (Tests.table "us-east-1" "nodejs10.x" "node:2")
          (Tests.store1 (Tests.fd "" (Some "name") None) [])))
    0
  = Some [VString "toString"].
Proof.
  intros H. unfold applyLayers.
  assert (regions_get (Tests.table "us-east-1" "nodejs10.x" "node:2") "toString"
          = Some (LibraryObject "Object.prototype.toString")) as -> by reflexivity.
  simpl. unfold applyLayers_iter. simpl. by rewrite H.
Qed.

(** A read that throws ends the pass: the records after it are not looked
    at. *)
Example inherited_region_name_throws library_get σ :
  library_get "Object.prototype.toString" "caller" = None →
  applyLayers library_get "toString"
    [Tests.info NODE (Some "caller"); Tests.info NODE (Some "name")]
    (Tests.table "us-east-1" "nodejs10.x" "node:2") σ
  = Throws σ.
Proof.
  intros H. unfold applyLayers.
  assert (regions_get (Tests.table "us-east-1" "nodejs10.x" "node:2") "toString"
          = Some (LibraryObject "Object.prototype.toString")) as -> by reflexivity.
  simpl. unfold applyLayers_iter. simpl. by rewrite H.
Qed.

(** After a pass that threw, a further pass still runs: the objects that
    two passes in a row leave are not those of one pass over both lists. *)
Example pass_after_a_throw library_get :
  library_get "Object.prototype.toString" "caller" = None →
  library_get "Object.prototype.toString" "name" = Some (VString "toString") →
  let layers := Tests.table "us-east-1" "nodejs10.x" "node:2" in
  let σ := Tests.store1 (Tests.fd "" None None) [] in
  let first := [Tests.info NODE (Some "caller")] in
  let second := [Tests.info NODE (Some "name")] in
  layersOf (store_of (applyLayers library_get "toString" (first ++ second) layers σ)) 0
  = None
  ∧ layersOf
      (store_of
         (applyLayers library_get "toString" second layers
            (store_of (applyLayers library_get "toString" first layers σ))))
      0
    = Some [VString "toString"].
Proof.
  intros Hcaller Hname. cbv zeta. unfold applyLayers.
  assert (regions_get (Tests.table "us-east-1" "nodejs10.x" "node:2") "toString"
          = Some (LibraryObject "Object.prototype.toString")) as -> by reflexivity.
  simpl. unfold applyLayers_iter. simpl. rewrite Hcaller. simpl. by rewrite Hname.
Qed.

(** A property that [custom.datadog] holds as [undefined] replaces the
    default. *)
Example getConfig_undefined_site :
  s_site (getConfig (Some Inputs.custom_undefined_site)) = None
  ∧ s_logLevel (getConfig (Some Inputs.custom_undefined_site)) = Some "info"
  ∧ as_Configuration (getConfig (Some Inputs.custom_undefined_site)) = None.
Proof. repeat split; reflexivity. Qed.

(** ** Handler references *)

Section HandlerPath.
Import Util.

Lemma split_nonempty sep s : split sep s ≠ [].
Proof. destruct s as [|c s]; simpl; [done|]. by repeat case_match. Qed.

(** Without a dot the reference is a single part. *)
Lemma split_no_dot s : has_dot s = false → split "." s = [s].
Proof.
  induction s as [|c s IH]; simpl; [done|].
  intros [Hc Hs]%orb_false_iff. rewrite Hc, (IH Hs). done.
Qed.

(** With a dot there are at least two parts. *)
Lemma split_has_dot s : has_dot s = true → (2 ≤ length (split "." s))%nat.
Proof.
  induction s as [|c s IH]; simpl; [done|].
  destruct (Ascii.eqb c ".") eqn:Hc; simpl.
  - intros _. pose proof (split_nonempty "." s).
    destruct (split "." s); simpl; [done | lia].
  - intros Hs. specialize (IH Hs).
    destruct (split "." s); simpl in *; lia.
Qed.

Lemma getHandlerPath_None σ info :
  getHandlerPath σ info = None
  ↔ has_dot (fd_handler (descriptors σ (handler info))) = false.
Proof.
  unfold getHandlerPath. split.
  - intros H. destruct (has_dot _) eqn:Hd; [|done].
    apply split_has_dot in Hd. apply Nat.ltb_ge in Hd. by rewrite Hd in H.
  - intros Hd. by rewrite (split_no_dot _ Hd).
Qed.

(** The parse only reads the record's function definition. *)
Lemma getHandlerPath_handler σ info info' :
  handler info = handler info' → getHandlerPath σ info = getHandlerPath σ info'.
Proof. unfold getHandlerPath. by intros ->. Qed.
End HandlerPath.

(** ** findHandlers *)

Arguments category_of : simpl never.

Lemma has_property_own {V} (own : gmap string V) k v :
  own !! k = Some v → has_property own k = true.
Proof.
  intros H. unfold has_property. rewrite bool_decide_eq_true_2; [done|by eexists].
Qed.

Lemma has_property_inherited {V} (own : gmap string V) k o :
  Object_prototype !! k = Some o → has_property own k = true.
Proof.
  intros H. unfold has_property.
  rewrite (bool_decide_eq_true_2 (is_Some (Object_prototype !! k))); [|by eexists].
  apply orb_true_r.
Qed.

Lemma has_property_neither {V} (own : gmap string V) k :
  own !! k = None → Object_prototype !! k = None → has_property own k = false.
Proof.
  intros H1 H2. unfold has_property. rewrite H1, H2.
  rewrite !bool_decide_eq_false_2; [done|by intros [? ?]..].
Qed.

Lemma runtimeLookup_get_own n (t : RuntimeType) :
  runtimeLookup !! n = Some t → runtimeLookup_get n = t.
Proof. unfold runtimeLookup_get. by intros ->. Qed.

Lemma runtimeLookup_get_inherited n o :
  runtimeLookup !! n = None → Object_prototype !! n = Some o →
  runtimeLookup_get n = VObject o.
Proof. unfold runtimeLookup_get, inherited. by intros -> ->. Qed.

Lemma RuntimeType_value_inj (t1 t2 : RuntimeType) : (t1 : value) = t2 → t1 = t2.
Proof. by destruct t1, t2. Qed.

Lemma runtimeLookup_values n ty :
  runtimeLookup !! n = Some ty → ty = NODE ∨ ty = PYTHON.
Proof.
  revert n ty. apply map_Forall_lookup. unfold runtimeLookup. simpl.
  repeat (apply map_Forall_insert_2; [auto|]). apply map_Forall_empty.
Qed.

(** What [findHandlers] starts from, case by case. *)
Lemma category_of_cases runtime :
  match runtime with
  | None => category_of runtime = UNSUPPORTED
  | Some n =>
      match runtimeLookup !! n with
      | Some t => category_of runtime = RuntimeType_value t
      | None =>
          match Object_prototype !! n with
          | Some o => category_of runtime = VObject o
          | None => category_of runtime = UNSUPPORTED
          end
      end
  end.
Proof.
  destruct runtime as [n|]; [|done]. unfold category_of.
  destruct (runtimeLookup !! n) as [t|] eqn:Hl.
  - by rewrite (has_property_own _ _ _ Hl), (runtimeLookup_get_own _ _ Hl).
  - destruct (Object_prototype !! n) as [o|] eqn:Ho.
    + by rewrite (has_property_inherited _ _ _ Ho), (runtimeLookup_get_inherited _ _ Hl Ho).
    + by rewrite (has_property_neither _ _ Hl Ho).
Qed.

(** Only the runtime names that the table says are [NODE] start as [NODE]. *)
Lemma category_of_NODE runtime :
  category_of runtime = NODE ↔ ∃ n, runtime = Some n ∧ runtimeLookup !! n = Some NODE.
Proof.
  pose proof (category_of_cases runtime) as H. split.
  - destruct runtime as [n|]; [|by rewrite H].
    destruct (runtimeLookup !! n) as [t|] eqn:Hl.
    + rewrite H. intros ->%RuntimeType_value_inj. by exists n.
    + destruct (Object_prototype !! n); by rewrite H.
  - intros (n & -> & Hl). by rewrite Hl in H.
Qed.

Section FindHandlersFacts.
Variable existsSync : string → bool.
Variable σ : store.
Variables (defaultRuntime : option string) (defaultNodeRuntime : option RuntimeType).

Abbreviation entry s := (findHandlers_entry existsSync σ s defaultRuntime defaultNodeRuntime).
Abbreviation find s := (findHandlers existsSync σ s defaultRuntime defaultNodeRuntime).

Lemma findHandlers_entry_with_functions service fs e :
  entry (with_functions service fs) e = entry service e.
Proof. reflexivity. Qed.

(** The output is assembled function by function, in input order. *)
Lemma findHandlers_split service pre e post :
  functions service = pre ++ e :: post →
  find service
  = find (with_functions service pre)
    ++ option_list (entry service e)
    ++ find (with_functions service post).
Proof.
  unfold findHandlers. intros ->. simpl.
  rewrite omap_app. simpl. by destruct (entry service e).
Qed.

Lemma findHandlers_drop service pre e post :
  functions service = pre ++ e :: post →
  entry service e = None →
  find service = find (with_functions service (pre ++ post)).
Proof.
  intros Hf He. rewrite (findHandlers_split _ _ _ _ Hf), He.
  unfold findHandlers. simpl. by rewrite omap_app.
Qed.

Lemma findHandlers_keep service pre e post r :
  functions service = pre ++ e :: post →
  entry service e = Some r →
  find service
  = find (with_functions service pre) ++ r :: find (with_functions service post).
Proof. intros Hf He. by rewrite (findHandlers_split _ _ _ _ Hf), He. Qed.

(** The callback in terms of the effective runtime name and of the type
    the record starts with. *)
Lemma entry_unfold service name h :
  entry service (name, h)
  = let runtime := effective_runtime σ h defaultRuntime in
    let info :=
      {| name := name; type := category_of runtime; handler := h; runtime := runtime |} in
    if decide (category_of runtime = NODE) then
      match Util.getHandlerPath σ info with
      | None => None
      | Some handlerPath =>
          match defaultNodeRuntime with
          | None =>
              let es6 :=
                existsSync ("./" +:+ Util.filename handlerPath +:+ ".es.js")
                || existsSync ("./" +:+ Util.filename handlerPath +:+ ".mjs")
                || hasWebpackPlugin service in
              let ts := existsSync ("./" +:+ Util.filename handlerPath +:+ ".ts") in
              Some (set_type (if ts then NODE_TS else if es6 then NODE_ES6 else NODE) info)
          | Some t => Some (set_type t info)
          end
      end
    else Some info.
Proof.
  unfold findHandlers_entry, effective_runtime, category_of. cbv zeta.
  destruct (match fd_runtime (descriptors σ h) with
            | None => defaultRuntime | Some r => Some r end) as [r|]; [|done].
  destruct (has_property runtimeLookup r); [|done]. simpl.
  destruct (decide (runtimeLookup_get r = NODE)) as [Hn|Hn]; [|done].
  rewrite Hn.
  destruct (Util.getHandlerPath _ _) as [hp|]; [|done].
  destruct defaultNodeRuntime; [done|].
  unfold set_type. simpl.
  by repeat match goal with
            | |- context [if ?b then _ else _] => destruct b
            end.
Qed.

Lemma entry_unsupported service name h :
  effective_runtime σ h defaultRuntime = None
  ∨ (∃ n, effective_runtime σ h defaultRuntime = Some n
          ∧ runtimeLookup !! n = None ∧ Object_prototype !! n = None) →
  entry service (name, h)
  = Some {| name := name; type := UNSUPPORTED; handler := h;
            runtime := effective_runtime σ h defaultRuntime |}.
Proof.
  intros H. rewrite entry_unfold. cbv zeta.
  assert (category_of (effective_runtime σ h defaultRuntime) = UNSUPPORTED) as ->.
  { destruct H as [->|(n & -> & Hl & Ho)]; [done|].
    pose proof (category_of_cases (Some n)) as Hc. simpl in Hc.
    by rewrite Hl, Ho in Hc. }
  by rewrite decide_False.
Qed.

Lemma entry_supported service name h n ty :
  effective_runtime σ h defaultRuntime = Some n →
  runtimeLookup !! n = Some ty →
  ty ≠ NODE →
  entry service (name, h)
  = Some {| name := name; type := ty; handler := h; runtime := Some n |}.
Proof.
  intros Hr Hl Hty. rewrite entry_unfold. cbv zeta. rewrite Hr.
  pose proof (category_of_cases (Some n)) as Hc. simpl in Hc. rewrite Hl in Hc. rewrite Hc.
  rewrite decide_False; [done|]. by intros ?%RuntimeType_value_inj.
Qed.

(** A runtime name that the table only inherits. *)
Lemma entry_inherited service name h n o :
  effective_runtime σ h defaultRuntime = Some n →
  runtimeLookup !! n = None →
  Object_prototype !! n = Some o →
  entry service (name, h)
  = Some {| name := name; type := VObject o; handler := h; runtime := Some n |}.
Proof.
  intros Hr Hl Ho. rewrite entry_unfold. cbv zeta. rewrite Hr.
  pose proof (category_of_cases (Some n)) as Hc. simpl in Hc. rewrite Hl, Ho in Hc.
  rewrite Hc.
  by rewrite decide_False.
Qed.

(** The managed-native branch, with the handler reference already parsed
    or found malformed. *)
Lemma entry_node service name h n :
  effective_runtime σ h defaultRuntime = Some n →
  runtimeLookup !! n = Some NODE →
  entry service (name, h)
  = let info := {| name := name; type := NODE; handler := h; runtime := Some n |} in
    match Util.getHandlerPath σ info with
    | None => None
    | Some handlerPath =>
        match defaultNodeRuntime with
        | None =>
            let es6 :=
              existsSync ("./" +:+ Util.filename handlerPath +:+ ".es.js")
              || existsSync ("./" +:+ Util.filename handlerPath +:+ ".mjs")
              || hasWebpackPlugin service in
            let ts := existsSync ("./" +:+ Util.filename handlerPath +:+ ".ts") in
            Some (set_type (if ts then NODE_TS else if es6 then NODE_ES6 else NODE) info)
        | Some t => Some (set_type t info)
        end
    end.
Proof.
  intros Hr Hl. rewrite entry_unfold. cbv zeta. rewrite Hr.
  pose proof (category_of_cases (Some n)) as Hc. simpl in Hc. rewrite Hl in Hc. rewrite Hc.
  by rewrite decide_True.
Qed.

(** A record is kept unless its runtime name is a [NODE] one. *)
Lemma entry_not_node service name h :
  (∀ n, effective_runtime σ h defaultRuntime = Some n → runtimeLookup !! n ≠ Some NODE) →
  entry service (name, h)
  = Some {| name := name; type := category_of (effective_runtime σ h defaultRuntime);
            handler := h; runtime := effective_runtime σ h defaultRuntime |}.
Proof.
  intros H. rewrite entry_unfold. cbv zeta.
  rewrite decide_False; [done|].
  intros (n & Hr & Hl)%category_of_NODE. by apply (H n).
Qed.

Lemma hasWebpackPlugin_true service ps :
  plugins service = Some ps → "serverless-webpack" ∈ ps →
  hasWebpackPlugin service = true.
Proof.
  unfold hasWebpackPlugin. intros Hp Hin. rewrite Hp. apply bool_decide_eq_true.
  clear Hp. induction ps as [|p ps IH]; [by apply not_elem_of_nil in Hin|].
  simpl. destruct (String.eqb p _) eqn:E; [by eexists|].
  apply String.eqb_neq in E.
  apply IH. apply elem_of_cons in Hin as [Heq|]; [congruence|done].
Qed.
End FindHandlersFacts.

(** ** applyLayers: one iteration *)

Section Iteration.
Variable library_get : string → string → option value.
Variable regionRuntimes : RegionRuntimes.

Abbreviation iter := (step library_get regionRuntimes).

Lemma Set_has_elem_of σ a x : Set_has σ a x = bool_decide (x ∈ arrays σ a).
Proof. unfold Set_has. apply bool_decide_ext, elem_of_list_to_set. Qed.

Lemma resolve_Some info arn :
  resolve library_get regionRuntimes info = Some arn
  ↔ ∃ r, runtime info = Some r
         ∧ regionRuntimes_get library_get regionRuntimes r = Some arn
         ∧ arn ≠ VUndefined.
Proof.
  unfold resolve. destruct (runtime info) as [r|]; cycle 1.
  { split; [done|]. by intros (r & ? & _). }
  destruct (regionRuntimes_get library_get regionRuntimes r) as [v|] eqn:Hget; cycle 1.
  { split; [done|]. intros (r' & [= <-] & ? & _). by simplify_eq. }
  destruct (decide (v ≠ VUndefined)) as [Hv|Hv].
  - split; [intros [= <-]; by exists r|]. intros (r' & [= <-] & ? & _). by simplify_eq.
  - split; [done|]. intros (r' & [= <-] & ? & ?). by simplify_eq.
Qed.

(** An iteration throws exactly for the records that [throws] tells, and
    leaves the objects alone when it does. *)
Lemma iter_completion σ info :
  applyLayers_iter library_get regionRuntimes σ info
  = if throws library_get regionRuntimes info then Throws σ else Returns (iter σ info).
Proof.
  unfold step, throws, applyLayers_iter.
  destruct (decide (type info = UNSUPPORTED)) as [Ht|Ht].
  - by rewrite bool_decide_eq_false_2 by (by intros ?).
  - rewrite bool_decide_eq_true_2 by done. simpl.
    destruct (runtime info) as [r|]; [|done].
    destruct (regionRuntimes_get library_get regionRuntimes r) as [v|].
    + rewrite bool_decide_eq_false_2 by done.
      destruct (decide (v ≠ VUndefined)); [|done]. by destruct (getLayers info σ).
    + by rewrite bool_decide_eq_true_2.
Qed.

Lemma iter_skip σ info :
  type info = UNSUPPORTED ∨ resolve library_get regionRuntimes info = None →
  iter σ info = σ.
Proof.
  unfold step, applyLayers_iter, resolve. intros [Ht|Hr].
  - by rewrite decide_True.
  - destruct (decide (type info = UNSUPPORTED)); [done|].
    destruct (runtime info) as [r|]; [|done].
    destruct (regionRuntimes_get library_get regionRuntimes r) as [v|]; [|done].
    by destruct (decide (v ≠ VUndefined)).
Qed.

Lemma iter_present σ info arn a :
  type info ≠ UNSUPPORTED →
  resolve library_get regionRuntimes info = Some arn →
  fd_layers (descriptors σ (handler info)) = Some a →
  iter σ info
  = setLayers info a (if bool_decide (arn ∈ arrays σ a) then σ else push a arn σ).
Proof.
  intros Ht (r & Hr & Hget & Hdef)%resolve_Some Ha.
  unfold step, applyLayers_iter, getLayers.
  rewrite decide_False, Hr, Hget, decide_True, Ha by done. rewrite Set_has_elem_of.
  by destruct (bool_decide _).
Qed.

Lemma iter_absent σ info arn :
  type info ≠ UNSUPPORTED →
  resolve library_get regionRuntimes info = Some arn →
  fd_layers (descriptors σ (handler info)) = None →
  iter σ info = setLayers info (next σ) (push (next σ) arn (alloc σ).2).
Proof.
  intros Ht (r & Hr & Hget & Hdef)%resolve_Some Ha.
  unfold step, applyLayers_iter, getLayers.
  rewrite decide_False, Hr, Hget, decide_True, Ha by done.
  unfold alloc. rewrite Set_has_elem_of.
  simpl. rewrite fn_lookup_insert. by rewrite bool_decide_eq_false_2 by apply not_elem_of_nil.
Qed.

(** The three ways an iteration can go. *)
Lemma iter_cases σ info :
  iter σ info = σ
  ∨ (∃ arn a, resolve library_get regionRuntimes info = Some arn
      ∧ fd_layers (descriptors σ (handler info)) = Some a
      ∧ iter σ info
        = setLayers info a (if bool_decide (arn ∈ arrays σ a) then σ else push a arn σ))
  ∨ (∃ arn, resolve library_get regionRuntimes info = Some arn
      ∧ fd_layers (descriptors σ (handler info)) = None
      ∧ iter σ info = setLayers info (next σ) (push (next σ) arn (alloc σ).2)).
Proof.
  destruct (decide (type info = UNSUPPORTED)) as [Ht|Ht];
    [left; apply iter_skip; by left|].
  destruct (resolve library_get regionRuntimes info) as [arn|] eqn:Hr;
    [|left; apply iter_skip; by right].
  destruct (fd_layers (descriptors σ (handler info))) as [a|] eqn:Ha.
  - right; left. exists arn, a. by rewrite (iter_present _ _ arn a).
  - right; right. exists arn. by rewrite (iter_absent _ _ arn).
Qed.

(** The [layers] field of a function definition after [setLayers]. *)
Lemma setLayers_fd_layers info a σ d :
  fd_layers (descriptors (setLayers info a σ) d)
  = if decide (handler info = d) then Some a else fd_layers (descriptors σ d).
Proof.
  unfold setLayers. simpl. unfold insert, fn_insert. by case_decide.
Qed.

(** What an iteration does to the function it is about: the resolved
    identifier is appended to the current list (the empty list if the
    field is absent) unless it is already a member. *)
Lemma iter_own_layers σ info arn :
  type info ≠ UNSUPPORTED →
  resolve library_get regionRuntimes info = Some arn →
  let currentLayers := default [] (layersOf σ (handler info)) in
  layersOf (iter σ info) (handler info)
  = Some (if decide (arn ∈ currentLayers) then currentLayers
          else currentLayers ++ [arn]).
Proof.
  intros Ht Hr. unfold layersOf.
  destruct (fd_layers (descriptors σ (handler info))) as [a|] eqn:Ha; simpl.
  - rewrite (iter_present _ _ arn a) by done.
    rewrite setLayers_fd_layers, decide_True by done. simpl. f_equal.
    destruct (decide (arn ∈ arrays σ a)) as [Hin|Hin].
    + by rewrite bool_decide_eq_true_2.
    + rewrite bool_decide_eq_false_2 by done. simpl. apply fn_lookup_insert.
  - rewrite (iter_absent _ _ arn) by done.
    rewrite setLayers_fd_layers, decide_True by done. simpl. f_equal.
    by rewrite !fn_lookup_insert.
Qed.

(** An iteration never makes a list with duplicates out of one without. *)
Lemma iter_NoDup σ info d :
  (∀ l, layersOf σ d = Some l → NoDup l) →
  ∀ l, layersOf (iter σ info) d = Some l → NoDup l.
Proof.
  intros Hnd l. unfold layersOf in *.
  destruct (iter_cases σ info) as [->|[(arn & a & _ & Ha & ->)|(arn & _ & Ha & ->)]];
    [apply Hnd| |].
  - rewrite setLayers_fd_layers.
    assert (fd_layers (descriptors σ d) = Some a
            → NoDup (arrays σ a)) as Hnd' by (intros E; apply Hnd; by rewrite E).
    destruct (decide (arn ∈ arrays σ a)) as [Hin|Hin].
    + rewrite bool_decide_eq_true_2 by done.
      case_decide as Hd; [subst d; intros [= <-]; by apply Hnd'|apply Hnd].
    + rewrite bool_decide_eq_false_2 by done. simpl.
      assert (∀ a', fd_layers (descriptors σ d) = Some a' →
                NoDup (<[a:=arrays σ a ++ [arn]]> (arrays σ) a')) as Hall.
      { intros a' Ha'. destruct (decide (a = a')) as [<-|Hne].
        - rewrite fn_lookup_insert. apply list.NoDup_app. split_and!.
          + by apply Hnd'.
          + intros x Hx ->%list_elem_of_singleton. done.
          + apply NoDup_singleton.
        - rewrite fn_lookup_insert_ne by done. apply Hnd. by rewrite Ha'. }
      case_decide as Hd.
      * subst d. intros [= <-]. by apply Hall.
      * destruct (fd_layers (descriptors σ d)) as [a'|] eqn:Ha'; [|done].
        intros [= <-]. by apply Hall.
  - rewrite setLayers_fd_layers. simpl.
    assert (∀ a', (∀ l, arrays σ <$> Some a' = Some l → NoDup l) ∨ a' = next σ →
              NoDup (<[next σ := (<[next σ := []]> (arrays σ) (next σ)) ++ [arn]]>
                       (<[next σ := []]> (arrays σ)) a')) as Hall.
    { intros a' Ha'. destruct (decide (next σ = a')) as [<-|Hne].
      - rewrite !fn_lookup_insert. apply NoDup_singleton.
      - rewrite !fn_lookup_insert_ne by done.
        destruct Ha' as [Ha'|Ha']; [by apply Ha'|done]. }
    case_decide as Hd.
    + intros [= <-]. apply Hall. by right.
    + destruct (fd_layers (descriptors σ d)) as [a'|] eqn:Ha'; [|done].
      intros [= <-]. apply Hall. left. apply Hnd.
Qed.
(** *** Growth and idempotence *)

Lemma store_eq_refl σ : store_eq σ σ.
Proof. by split_and!. Qed.

Lemma store_eq_layersOf σ1 σ2 d : store_eq σ1 σ2 → layersOf σ1 d = layersOf σ2 d.
Proof.
  intros (Hd & Ha & _). unfold layersOf. rewrite Hd.
  destruct (fd_layers _); simpl; [by rewrite Ha|done].
Qed.

Lemma iter_wf σ info : store_wf σ → store_wf (iter σ info).
Proof.
  intros Hwf d a'.
  destruct (iter_cases σ info)
    as [->|[(arn & a & _ & Ha & ->)|(arn & _ & Ha & ->)]]; [apply Hwf| |].
  - rewrite setLayers_fd_layers.
    assert (next (if bool_decide (arn ∈ arrays σ a) then σ else push a arn σ) = next σ)
      as Hn by (by destruct (bool_decide _)).
    unfold setLayers at 1. simpl. rewrite Hn.
    destruct (decide (handler info = d)) as [Hd|Hd].
    + intros [= <-]. by apply (Hwf (handler info)).
    + destruct (bool_decide _); apply Hwf.
  - rewrite setLayers_fd_layers. simpl.
    destruct (decide (handler info = d)) as [Hd|Hd]; [intros [= <-]; lia|].
    intros Ha'. apply Hwf in Ha'. lia.
Qed.

(** Iterations are append-only: a function definition keeps its array,
    and an allocated array keeps its members. *)
Lemma iter_grows σ info d a :
  store_wf σ →
  fd_layers (descriptors σ d) = Some a →
  fd_layers (descriptors (iter σ info) d) = Some a
  ∧ ∀ x, x ∈ arrays σ a → x ∈ arrays (iter σ info) a.
Proof.
  intros Hwf Hd.
  destruct (iter_cases σ info)
    as [->|[(arn & a' & _ & Ha & ->)|(arn & _ & Ha & ->)]]; [done| |].
  - rewrite setLayers_fd_layers. split.
    + destruct (decide (handler info = d)) as [Heq|Heq];
        [|by destruct (bool_decide _)].
      subst d. congruence.
    + intros x Hx. destruct (bool_decide _); [done|]. simpl.
      destruct (decide (a' = a)) as [->|Hne].
      * rewrite fn_lookup_insert. apply elem_of_app. by left.
      * by rewrite fn_lookup_insert_ne.
  - rewrite setLayers_fd_layers. split.
    + destruct (decide (handler info = d)) as [Heq|Heq]; [|done].
      subst d. congruence.
    + intros x Hx. simpl. apply Hwf in Hd.
      rewrite !fn_lookup_insert_ne by lia. done.
Qed.

(** After its own iteration a record is settled. *)
Lemma iter_settles σ info : settled library_get regionRuntimes (iter σ info) info.
Proof.
  destruct (decide (type info = UNSUPPORTED)) as [Ht|Ht]; [by left|].
  destruct (resolve library_get regionRuntimes info) as [arn|] eqn:Hr; [|by right; left].
  right; right.
  pose proof (iter_own_layers σ info arn Ht Hr) as Hown.
  simpl in Hown. unfold layersOf in Hown.
  destruct (fd_layers (descriptors (iter σ info) (handler info))) as [a|];
    [|done].
  exists arn, a. split_and!; [done..|].
  simpl in Hown. injection Hown as ->.
  case_decide; [done|]. apply elem_of_app. right. by apply list_elem_of_singleton.
Qed.

Lemma iter_settled_mono σ info info' :
  store_wf σ →
  settled library_get regionRuntimes σ info →
  settled library_get regionRuntimes (iter σ info') info.
Proof.
  intros Hwf [?|[?|(arn & a & Hr & Ha & Hin)]]; [by left|by right; left|].
  right; right. exists arn, a.
  destruct (iter_grows σ info' _ _ Hwf Ha) as [Ha' Hsub]. by split_and!; [..|apply Hsub].
Qed.

Lemma foldl_wf σ handlers : store_wf σ → store_wf (foldl iter σ handlers).
Proof.
  revert σ. induction handlers as [|info handlers IH]; intros σ Hwf; [done|].
  simpl. by apply IH, iter_wf.
Qed.

Lemma foldl_settled_mono σ handlers info :
  store_wf σ →
  settled library_get regionRuntimes σ info →
  settled library_get regionRuntimes (foldl iter σ handlers) info.
Proof.
  revert σ. induction handlers as [|info' handlers IH]; intros σ Hwf Hs; [done|].
  simpl. apply IH; [by apply iter_wf | by apply iter_settled_mono].
Qed.

(** After a pass every record of the pass is settled. *)
Lemma foldl_settles σ handlers :
  store_wf σ → Forall (settled library_get regionRuntimes (foldl iter σ handlers)) handlers.
Proof.
  revert σ. induction handlers as [|info handlers IH]; intros σ Hwf; [done|].
  simpl. constructor.
  - apply foldl_settled_mono; [by apply iter_wf | apply iter_settles].
  - by apply IH, iter_wf.
Qed.

Lemma settled_store_eq σ1 σ2 info :
  store_eq σ1 σ2 →
  settled library_get regionRuntimes σ2 info → settled library_get regionRuntimes σ1 info.
Proof.
  intros (Hd & Ha & _) [?|[?|(arn & a & Hr & Hl & Hin)]]; [by left|by right; left|].
  right; right. exists arn, a. by rewrite Hd, Ha.
Qed.

(** The iteration of a settled record changes no object. *)
Lemma iter_settled_noop σ info :
  settled library_get regionRuntimes σ info → store_eq (iter σ info) σ.
Proof.
  intros [Ht|[Hr|(arn & a & Hr & Ha & Hin)]].
  - rewrite iter_skip by (by left). apply store_eq_refl.
  - rewrite iter_skip by (by right). apply store_eq_refl.
  - destruct (decide (type info = UNSUPPORTED)) as [Ht|Ht].
    { rewrite iter_skip by (by left). apply store_eq_refl. }
    rewrite (iter_present _ _ arn a) by done.
    rewrite bool_decide_eq_true_2 by done.
    split_and!; [|done..].
    intros d. unfold setLayers. simpl. unfold insert, fn_insert.
    case_decide as Hd; [|done]. subst d.
    destruct (descriptors σ (handler info)). simpl in *. by subst.
Qed.

Lemma foldl_settled_noop σ σ' handlers :
  Forall (settled library_get regionRuntimes σ) handlers →
  store_eq σ' σ → store_eq (foldl iter σ' handlers) σ.
Proof.
  intros Hall. revert σ'.
  induction Hall as [|info handlers Hs _ IH]; intros σ' Heq; [done|].
  simpl. apply IH.
  pose proof (iter_settled_noop σ' info (settled_store_eq _ _ _ Heq Hs))
    as (Hd & Ha & Hn).
  destruct Heq as (Hd' & Ha' & Hn').
  split_and!; [intros d; by rewrite Hd | intros a; by rewrite Ha | congruence].
Qed.

Lemma foldl_NoDup σ handlers d :
  (∀ l, layersOf σ d = Some l → NoDup l) →
  ∀ l, layersOf (foldl iter σ handlers) d = Some l → NoDup l.
Proof.
  revert σ. induction handlers as [|info handlers IH]; intros σ Hnd; [done|].
  simpl. apply IH. by apply iter_NoDup.
Qed.
(** *** What an iteration leaves alone *)

(** An iteration leaves alone every function definition it does not touch. *)
Lemma iter_frame σ info d :
  store_wf σ →
  (merged library_get regionRuntimes info → ¬ touches σ info d) →
  descriptors (iter σ info) d = descriptors σ d
  ∧ layersOf (iter σ info) d = layersOf σ d.
Proof.
  intros Hwf Hnt.
  destruct (decide (type info = UNSUPPORTED)) as [Ht|Ht];
    [by rewrite iter_skip by (by left)|].
  destruct (resolve library_get regionRuntimes info) as [arn|] eqn:Hr;
    [|by rewrite iter_skip by (by right)].
  assert (¬ touches σ info d) as Hn by (apply Hnt; split; [done|by rewrite Hr]).
  assert (handler info ≠ d) as Hd by (intros E; apply Hn; by left).
  unfold layersOf.
  destruct (fd_layers (descriptors σ (handler info))) as [a|] eqn:Ha.
  - rewrite (iter_present _ _ arn a) by done.
    assert (descriptors
              (setLayers info a (if bool_decide (arn ∈ arrays σ a) then σ else push a arn σ)) d
            = descriptors σ d) as ->.
    { unfold setLayers. simpl. rewrite fn_lookup_insert_ne by done.
      by destruct (bool_decide _). }
    split; [done|].
    destruct (fd_layers (descriptors σ d)) as [a'|] eqn:Ha'; [|done]. simpl.
    destruct (bool_decide _); [done|]. simpl.
    rewrite fn_lookup_insert_ne; [done|].
    intros ->. apply Hn. right. by exists a'.
  - rewrite (iter_absent _ _ arn) by done.
    assert (descriptors (setLayers info (next σ) (push (next σ) arn (alloc σ).2)) d
            = descriptors σ d) as ->.
    { unfold setLayers. simpl. by rewrite fn_lookup_insert_ne. }
    split; [done|].
    destruct (fd_layers (descriptors σ d)) as [a'|] eqn:Ha'; [|done]. simpl.
    apply Hwf in Ha'. by rewrite !fn_lookup_insert_ne by lia.
Qed.

(** A record that does not touch [d] still does not after another
    record's iteration. *)
Lemma iter_touches σ info info' d :
  store_wf σ →
  (merged library_get regionRuntimes info' → ¬ touches σ info' d) →
  touches (iter σ info') info d → touches σ info d.
Proof.
  intros Hwf Hnt [Hd|(a & Hda & Hia)]; [by left|].
  destruct (iter_frame σ info' d Hwf Hnt) as [Hdesc _].
  rewrite Hdesc in Hda.
  destruct (fd_layers (descriptors σ (handler info))) as [a'|] eqn:Ha'.
  - destruct (iter_grows σ info' _ _ Hwf Ha') as [Hsame _].
    right. exists a. split; [done|]. congruence.
  - (* the array of [info] is new, hence not the one of [d] *)
    exfalso. apply Hwf in Hda.
    destruct (iter_cases σ info')
      as [E|[(arn & a0 & _ & Ha0 & E)|(arn & _ & Ha0 & E)]]; rewrite E in Hia.
    + congruence.
    + rewrite setLayers_fd_layers in Hia.
      destruct (decide (handler info' = handler info)) as [Heq|Hne].
      * rewrite Heq in Ha0. congruence.
      * destruct (bool_decide _); simpl in Hia; congruence.
    + rewrite setLayers_fd_layers in Hia. simpl in Hia.
      destruct (decide (handler info' = handler info)) as [Heq|Hne].
      * injection Hia as <-. lia.
      * congruence.
Qed.

Lemma foldl_frame σ handlers d :
  store_wf σ →
  Forall (λ info, merged library_get regionRuntimes info → ¬ touches σ info d) handlers →
  descriptors (foldl iter σ handlers) d = descriptors σ d
  ∧ layersOf (foldl iter σ handlers) d = layersOf σ d.
Proof.
  revert σ. induction handlers as [|info handlers IH]; intros σ Hwf Hall; [done|].
  apply Forall_cons_1 in Hall as [Hinfo Hall]. simpl.
  destruct (iter_frame σ info d Hwf Hinfo) as [E1 E2]. rewrite <-E1, <-E2.
  apply IH; [by apply iter_wf|].
  rewrite list.Forall_forall in Hall. apply list.Forall_forall. intros info' Hin Hm Ht.
  apply (Hall info' Hin Hm). by apply (iter_touches σ info' info d).
Qed.

(** *** The loop *)

(** The objects after the loop are those after the iterations that ran. *)
Lemma loop_store σ handlers :
  store_of (applyLayers_loop library_get regionRuntimes σ handlers)
  = foldl iter σ (executed library_get regionRuntimes handlers).
Proof.
  revert σ. induction handlers as [|info handlers IH]; intros σ; [done|].
  simpl. rewrite iter_completion.
  destruct (throws library_get regionRuntimes info); [done|]. simpl. apply IH.
Qed.

(** The loop returns when no record throws. *)
Lemma loop_returns σ handlers :
  executed library_get regionRuntimes handlers = handlers →
  applyLayers_loop library_get regionRuntimes σ handlers = Returns (foldl iter σ handlers).
Proof.
  revert σ. induction handlers as [|info handlers IH]; intros σ; [done|].
  simpl. rewrite iter_completion.
  destruct (throws library_get regionRuntimes info); [done|].
  intros [= H]. simpl. by apply IH.
Qed.

Lemma executed_elem_of handlers info :
  info ∈ executed library_get regionRuntimes handlers → info ∈ handlers.
Proof.
  induction handlers as [|info' handlers IH]; simpl; [done|].
  destruct (throws library_get regionRuntimes info'); [by intros ?%elem_of_nil|].
  intros [->|H]%elem_of_cons; [apply list_elem_of_here|].
  by apply list_elem_of_further, IH.
Qed.

Lemma loop_app σ handlers1 handlers2 :
  applyLayers_loop library_get regionRuntimes σ (handlers1 ++ handlers2)
  = and_then (applyLayers_loop library_get regionRuntimes σ handlers1)
      (λ σ, applyLayers_loop library_get regionRuntimes σ handlers2).
Proof.
  revert σ. induction handlers1 as [|info handlers1 IH]; intros σ; [done|].
  simpl. destruct (applyLayers_iter library_get regionRuntimes σ info); simpl; [apply IH|done].
Qed.
End Iteration.

(** A table of the file can be read under every name. *)
Lemma executed_Table library_get table handlers :
  executed library_get (Table table) handlers = handlers.
Proof.
  induction handlers as [|info handlers IH]; [done|]. simpl.
  assert (throws library_get (Table table) info = false) as ->; [|by rewrite IH].
  unfold throws. apply andb_false_iff. right.
  destruct (runtime info); [|done]. by apply bool_decide_eq_false_2.
Qed.

(** The entries of a table of the file, as the code reads them. *)
Lemma regions_get_own layers region table :
  own_entry (regions layers) region = Some table →
  regions_get layers region = Some (Table table).
Proof.
  unfold own_entry, regions_get.
  destruct (regions layers !! region) as [[t|]|]; simpl; [by intros [= ->]|done..].
Qed.

Lemma regions_get_neither layers region :
  own_entry (regions layers) region = None →
  Object_prototype !! region = None →
  regions_get layers region = None.
Proof.
  unfold own_entry, regions_get.
  destruct (regions layers !! region) as [[t|]|]; simpl; [done|done|by intros _ ->].
Qed.

Lemma resolve_own library_get table info r layerARN :
  runtime info = Some r →
  own_entry table r = Some layerARN →
  resolve library_get (Table table) info = Some (VString layerARN).
Proof.
  unfold resolve, own_entry. intros -> H. simpl.
  destruct (table !! r) as [[arn|]|]; simpl in H; [|done..].
  injection H as ->. by rewrite decide_True.
Qed.

Lemma resolve_neither library_get table info r :
  runtime info = Some r →
  own_entry table r = None →
  Object_prototype !! r = None →
  resolve library_get (Table table) info = None.
Proof.
  unfold resolve, own_entry. intros -> H Ho. simpl. unfold inherited. rewrite Ho.
  destruct (table !! r) as [[arn|]|]; simpl in H; [done|..];
    by rewrite decide_False by (by intros ?).
Qed.

(** ** applyLayers: passes *)

Section Passes.
Variable library_get : string → string → option value.

Lemma applyLayers_unknown_region region handlers layers σ :
  regions_get layers region = None →
  applyLayers library_get region handlers layers σ = Returns σ.
Proof. unfold applyLayers. by intros ->. Qed.

(** The objects after a pass are those after the iterations that ran. *)
Lemma applyLayers_store region handlers layers σ regionRuntimes :
  regions_get layers region = Some regionRuntimes →
  store_of (applyLayers library_get region handlers layers σ)
  = foldl (step library_get regionRuntimes) σ
      (executed library_get regionRuntimes handlers).
Proof. unfold applyLayers. intros ->. apply loop_store. Qed.

(** With a table of the file for the region, the pass returns, having run
    every iteration. *)
Lemma applyLayers_table region handlers layers σ table :
  own_entry (regions layers) region = Some table →
  applyLayers library_get region handlers layers σ
  = Returns (foldl (step library_get (Table table)) σ handlers).
Proof.
  intros Hreg%regions_get_own. unfold applyLayers. rewrite Hreg.
  apply loop_returns, executed_Table.
Qed.

(** The pass up to and including a record is the pass up to it followed by
    the record's iteration. *)
Lemma applyLayers_snoc region pre info layers σ table :
  own_entry (regions layers) region = Some table →
  store_of (applyLayers library_get region (pre ++ [info]) layers σ)
  = step library_get (Table table)
      (store_of (applyLayers library_get region pre layers σ)) info.
Proof.
  intros Hr. rewrite !(applyLayers_table _ _ _ _ _ Hr). simpl. by rewrite foldl_app.
Qed.

(** A function definition that no merged record touches comes out of the
    pass as it went in. *)
Lemma applyLayers_frame region handlers layers σ d :
  store_wf σ →
  (∀ regionRuntimes info,
     regions_get layers region = Some regionRuntimes →
     info ∈ handlers → merged library_get regionRuntimes info → ¬ touches σ info d) →
  descriptors (store_of (applyLayers library_get region handlers layers σ)) d
  = descriptors σ d
  ∧ layersOf (store_of (applyLayers library_get region handlers layers σ)) d
    = layersOf σ d.
Proof.
  intros Hwf H.
  destruct (regions_get layers region) as [regionRuntimes|] eqn:Hreg;
    [|by rewrite applyLayers_unknown_region].
  rewrite (applyLayers_store _ _ _ _ _ Hreg).
  apply foldl_frame; [done|]. apply list.Forall_forall. intros info Hin Hm.
  apply (H regionRuntimes info); [done| |done]. by eapply executed_elem_of.
Qed.
End Passes.

(** ** setEnvConfiguration *)

Lemma set_if_undefined_lookup k v environment k' :
  k' ≠ k ∨ env_get environment k' ≠ VUndefined →
  set_if_undefined k v environment !! k' = environment !! k'.
Proof.
  unfold set_if_undefined. intros H. case_decide as Hk; [|done].
  destruct (decide (k = k')) as [<-|Hne]; [|by rewrite lookup_insert_ne].
  by destruct H.
Qed.

Lemma set_if_undefined_get k v environment k' :
  env_get environment k' ≠ VUndefined →
  env_get (set_if_undefined k v environment) k' ≠ VUndefined.
Proof.
  intros H. unfold env_get. rewrite set_if_undefined_lookup; [done|by right].
Qed.

(** ** Properties of the specification *)

(** C1. A function whose effective runtime name (its declared runtime,
    else the default) is undefined or is not a key of [runtimeLookup] keeps
    a record in the output, at the function's position, with the raw
    runtime name in [runtime].  The record's type is [UNSUPPORTED] exactly
    when the name is not a property of [Object.prototype] either: for a
    name such as ["constructor"] the test [runtime in runtimeLookup] holds
    and the type is the inherited library object. *)
Theorem C1_runtime_outside_the_table
    existsSync σ defaultRuntime defaultNodeRuntime service pre name h post :
  functions service = pre ++ (name, h) :: post →
  (effective_runtime σ h defaultRuntime = None
   ∨ ∃ n, effective_runtime σ h defaultRuntime = Some n ∧ runtimeLookup !! n = None) →
  let record :=
    {| name := name; type := category_of (effective_runtime σ h defaultRuntime);
       handler := h; runtime := effective_runtime σ h defaultRuntime |} in
  findHandlers_entry existsSync σ service defaultRuntime defaultNodeRuntime (name, h)
  = Some record
  ∧ findHandlers existsSync σ service defaultRuntime defaultNodeRuntime
    = findHandlers existsSync σ (with_functions service pre)
        defaultRuntime defaultNodeRuntime
      ++ record
      :: findHandlers existsSync σ (with_functions service post)
           defaultRuntime defaultNodeRuntime
  ∧ (type record = UNSUPPORTED
     ↔ ∀ n, effective_runtime σ h defaultRuntime = Some n → Object_prototype !! n = None)
  ∧ (∀ n o, effective_runtime σ h defaultRuntime = Some n →
            Object_prototype !! n = Some o → type record = VObject o).
Proof.
  intros Hf Hr record.
  assert (findHandlers_entry existsSync σ service defaultRuntime defaultNodeRuntime
            (name, h) = Some record) as He.
  { apply entry_not_node. intros n Hn Hl.
    destruct Hr as [Hr|(n' & Hr & Hl')]; [congruence|].
    rewrite Hn in Hr. injection Hr as <-. congruence. }
  split; [exact He|]. split; [eapply findHandlers_keep; [exact Hf | exact He]|].
  subst record. simpl.
  pose proof (category_of_cases (effective_runtime σ h defaultRuntime)) as Hc.
  destruct Hr as [Hr|(n & Hr & Hl)]; rewrite Hr in *.
  - split; [by split|]. by intros n o.
  - rewrite Hl in Hc. destruct (Object_prototype !! n) as [o|] eqn:Ho; rewrite Hc.
    + split.
      * split; [discriminate|]. intros H. specialize (H n eq_refl). by simplify_eq.
      * intros n' o' [= <-] Ho'. by simplify_eq.
    + split.
      * split; [|done]. by intros _ n' [= <-].
      * intros n' o' [= <-] Ho'. by simplify_eq.
Qed.

(** C2. For a record that is not [UNSUPPORTED], has a runtime name, and whose
    runtime has an entry [layerARN] in the region's table, the record's
    iteration leaves the function with the list it had on entry (the empty
    list if the field was absent) when [layerARN] is a member of it, and
    with that list followed by [layerARN] otherwise.  [pre] are the records
    the pass has gone through before. *)
Theorem C2_append_unless_member
    library_get region pre info layers σ regionRuntimes r (layerARN : string) :
  own_entry (regions layers) region = Some regionRuntimes →
  type info ≠ UNSUPPORTED →
  runtime info = Some r →
  own_entry regionRuntimes r = Some layerARN →
  let before := store_of (applyLayers library_get region pre layers σ) in
  let after := store_of (applyLayers library_get region (pre ++ [info]) layers σ) in
  let currentLayers := default [] (layersOf before (handler info)) in
  layersOf after (handler info)
  = Some (if decide (VString layerARN ∈ currentLayers) then currentLayers
          else currentLayers ++ [VString layerARN]).
Proof.
  intros Hreg Ht Hr Harn. cbv zeta.
  rewrite (applyLayers_snoc _ _ _ _ _ _ _ Hreg).
  apply iter_own_layers; [done|]. by apply (resolve_own _ _ _ r).
Qed.

(** C3, as amended. A merge pass adds no duplicate: a function whose layer
    list is absent or free of duplicates before the pass has a list free of
    duplicates after it. *)
Theorem C3_no_duplicates_preserved library_get region handlers layers σ d :
  (∀ l, layersOf σ d = Some l → NoDup l) →
  ∀ l, layersOf (store_of (applyLayers library_get region handlers layers σ)) d = Some l →
       NoDup l.
Proof.
  intros Hnd.
  destruct (regions_get layers region) as [regionRuntimes|] eqn:Hreg;
    [|by rewrite applyLayers_unknown_region].
  rewrite (applyLayers_store _ _ _ _ _ _ Hreg). by apply foldl_NoDup.
Qed.

(** C4. Running [applyLayers] again with the same region and table changes
    no object: every function definition, every array and so every
    function's layer list is as the first run left it.  [store_wf] says
    that array identities handed out by [[]] are new; [store_of] gives the
    objects as a run leaves them, whether it returns or throws. *)
Theorem C4_idempotent library_get region handlers layers σ :
  store_wf σ →
  let once := store_of (applyLayers library_get region handlers layers σ) in
  let twice := store_of (applyLayers library_get region handlers layers once) in
  store_eq twice once ∧ ∀ d, layersOf twice d = layersOf once d.
Proof.
  intros Hwf. cbv zeta.
  assert (store_eq
            (store_of (applyLayers library_get region handlers layers
                         (store_of (applyLayers library_get region handlers layers σ))))
            (store_of (applyLayers library_get region handlers layers σ))) as Heq.
  { destruct (regions_get layers region) as [regionRuntimes|] eqn:Hreg;
      [|rewrite !applyLayers_unknown_region by done; apply store_eq_refl].
    rewrite !(applyLayers_store _ _ _ _ _ _ Hreg).
    apply foldl_settled_noop; [by apply foldl_settles | apply store_eq_refl]. }
  split; [exact Heq|]. intros d. by apply store_eq_layersOf.
Qed.

(** C5, as amended. A function definition comes out of a pass with the
    layer list (or the absence of one) it went in with when every record of
    the pass that is about it, or about a definition sharing its layer
    array, is one the merge has nothing for: its type is [UNSUPPORTED], or
    it has no runtime name, or the region has no entry in the layer table,
    or the region's table has no entry for its runtime name.  The region
    and runtime names meant are those that are no property of
    [Object.prototype]. *)
Theorem C5_untouched_function_unchanged library_get region handlers layers σ d :
  store_wf σ →
  (∀ info, info ∈ handlers → touches σ info d →
     type info = UNSUPPORTED
     ∨ runtime info = None
     ∨ (own_entry (regions layers) region = None ∧ Object_prototype !! region = None)
     ∨ ∃ regionRuntimes r,
         own_entry (regions layers) region = Some regionRuntimes
         ∧ runtime info = Some r
         ∧ own_entry regionRuntimes r = None ∧ Object_prototype !! r = None) →
  layersOf (store_of (applyLayers library_get region handlers layers σ)) d = layersOf σ d
  ∧ descriptors (store_of (applyLayers library_get region handlers layers σ)) d
    = descriptors σ d.
Proof.
  intros Hwf H.
  enough (descriptors (store_of (applyLayers library_get region handlers layers σ)) d
          = descriptors σ d
          ∧ layersOf (store_of (applyLayers library_get region handlers layers σ)) d
            = layersOf σ d) as [? ?] by done.
  apply applyLayers_frame; [done|].
  intros regionRuntimes info Hreg Hin [Ht [arn Hres]] Htouch.
  destruct (H info Hin Htouch) as [?|[Hr|[[Hown Hproto]|(table & r & Hown & Hr & Hp & Hproto)]]].
  - done.
  - unfold resolve in Hres. by rewrite Hr in Hres.
  - rewrite (regions_get_neither _ _ Hown Hproto) in Hreg. done.
  - rewrite (regions_get_own _ _ _ Hown) in Hreg. injection Hreg as <-.
    by rewrite (resolve_neither _ _ _ _ Hr Hp Hproto) in Hres.
Qed.

(** C6. A function whose runtime maps to [NODE] and whose handler
    reference contains no dot is left out of the result: the callback
    returns nothing for it and the output is the one of the service
    without that function.  (The embedding of [findHandlers] is a total
    function into lists; the source has no [throw] and no logging.) *)
Theorem C6_malformed_handler_dropped
    existsSync σ defaultRuntime defaultNodeRuntime service pre name h post n :
  functions service = pre ++ (name, h) :: post →
  effective_runtime σ h defaultRuntime = Some n →
  runtimeLookup !! n = Some NODE →
  has_dot (fd_handler (descriptors σ h)) = false →
  findHandlers_entry existsSync σ service defaultRuntime defaultNodeRuntime (name, h)
  = None
  ∧ findHandlers existsSync σ service defaultRuntime defaultNodeRuntime
    = findHandlers existsSync σ (with_functions service (pre ++ post))
        defaultRuntime defaultNodeRuntime.
Proof.
  intros Hf Hr Hl Hd.
  assert (findHandlers_entry existsSync σ service defaultRuntime defaultNodeRuntime
            (name, h) = None) as He.
  { rewrite (entry_node _ _ _ _ _ _ _ _ Hr Hl). cbv zeta.
    assert (Util.getHandlerPath σ
              {| name := name; type := NODE; handler := h; runtime := Some n |}
            = None) as -> by (by apply getHandlerPath_None).
    done. }
  split; [exact He|]. eapply findHandlers_drop; [exact Hf | exact He].
Qed.

(** C7. With no forced dialect, a [NODE] function whose module path has a
    sibling [.ts] file is classified [NODE_TS], whatever the [.es.js] and
    [.mjs] probes and the plugin list say.  The module path is the one
    parsed from the handler reference. *)
Theorem C7_typescript_precedence
    existsSync σ defaultRuntime defaultNodeRuntime service pre name h post n handlerPath :
  functions service = pre ++ (name, h) :: post →
  effective_runtime σ h defaultRuntime = Some n →
  runtimeLookup !! n = Some NODE →
  defaultNodeRuntime = None →
  Util.getHandlerPath σ {| name := name; type := NODE; handler := h; runtime := Some n |}
  = Some handlerPath →
  existsSync ("./" +:+ Util.filename handlerPath +:+ ".ts") = true →
  findHandlers existsSync σ service defaultRuntime defaultNodeRuntime
  = findHandlers existsSync σ (with_functions service pre)
      defaultRuntime defaultNodeRuntime
    ++ {| name := name; type := NODE_TS; handler := h; runtime := Some n |}
    :: findHandlers existsSync σ (with_functions service post)
         defaultRuntime defaultNodeRuntime.
Proof.
  intros Hf Hr Hl Hn Hp Hts. eapply findHandlers_keep; [exact Hf|].
  rewrite (entry_node _ _ _ _ _ _ _ _ Hr Hl). cbv zeta.
  by rewrite Hp, Hn, Hts.
Qed.

(** C8, as amended. With no forced dialect and none of the three sibling
    files, a [NODE] function whose handler reference parses, of a service
    whose plugin list contains ["serverless-webpack"], is classified
    [NODE_ES6].  The sibling files are those of the module path parsed from
    the handler reference. *)
Theorem C8_webpack_defaults_to_es6
    existsSync σ defaultRuntime defaultNodeRuntime service pre name h post n
    handlerPath ps :
  functions service = pre ++ (name, h) :: post →
  effective_runtime σ h defaultRuntime = Some n →
  runtimeLookup !! n = Some NODE →
  defaultNodeRuntime = None →
  Util.getHandlerPath σ {| name := name; type := NODE; handler := h; runtime := Some n |}
  = Some handlerPath →
  existsSync ("./" +:+ Util.filename handlerPath +:+ ".es.js") = false →
  existsSync ("./" +:+ Util.filename handlerPath +:+ ".mjs") = false →
  existsSync ("./" +:+ Util.filename handlerPath +:+ ".ts") = false →
  plugins service = Some ps →
  "serverless-webpack" ∈ ps →
  findHandlers existsSync σ service defaultRuntime defaultNodeRuntime
  = findHandlers existsSync σ (with_functions service pre)
      defaultRuntime defaultNodeRuntime
    ++ {| name := name; type := NODE_ES6; handler := h; runtime := Some n |}
    :: findHandlers existsSync σ (with_functions service post)
         defaultRuntime defaultNodeRuntime.
Proof.
  intros Hf Hr Hl Hn Hp Hes Hmjs Hts Hps Hin. eapply findHandlers_keep; [exact Hf|].
  rewrite (entry_node _ _ _ _ _ _ _ _ Hr Hl). cbv zeta.
  by rewrite Hp, Hn, Hes, Hmjs, Hts, (hasWebpackPlugin_true _ _ Hps Hin).
Qed.

(** C9. [setEnvConfiguration] only fills in what is missing: an environment
    key that is not one of the five variables, or that is one of them and
    already defined, has the same entry (or the same absence) afterwards.
    An undefined [provider.environment] counts as the empty environment. *)
Theorem C9_env_only_fills_absent config service k :
  k ∉ envVars
  ∨ env_get (default ∅ (environment (provider service))) k ≠ VUndefined →
  default ∅ (environment (provider (setEnvConfiguration config service))) !! k
  = default ∅ (environment (provider service)) !! k.
Proof.
  intros H. unfold setEnvConfiguration. simpl.
  set (e0 := match environment (provider service) with
             | Some environment => environment | None => ∅ end).
  assert (default ∅ (environment (provider service)) = e0) as He0
    by (subst e0; by destruct (environment _)).
  rewrite He0 in *. clearbody e0.
  assert (∀ v k0 e, k0 ∈ envVars →
            (k ∉ envVars ∨ env_get e k ≠ VUndefined) →
            set_if_undefined k0 v e !! k = e !! k
            ∧ (k ∉ envVars ∨ env_get (set_if_undefined k0 v e) k ≠ VUndefined))
    as Hstep.
  { intros v k0 e Hk0 [Hk|Hk].
    - split; [|by left]. apply set_if_undefined_lookup. left. by intros ->.
    - split; [apply set_if_undefined_lookup; by right|].
      right. by apply set_if_undefined_get. }
  set (e1 := match apiKey config with
             | Some apiKey => set_if_undefined apiKeyEnvVar (VString apiKey) e0
             | None => e0 end).
  assert (e1 !! k = e0 !! k ∧ (k ∉ envVars ∨ env_get e1 k ≠ VUndefined)) as [E1 H1].
  { subst e1. destruct (apiKey config); [|done].
    apply Hstep; [in_envVars|done]. }
  clearbody e1.
  set (e2 := match apiKMSKey config with
             | Some apiKMSKey => set_if_undefined apiKeyKMSEnvVar (VString apiKMSKey) e1
             | None => e1 end).
  assert (e2 !! k = e1 !! k ∧ (k ∉ envVars ∨ env_get e2 k ≠ VUndefined)) as [E2 H2].
  { subst e2. destruct (apiKMSKey config); [|done].
    apply Hstep; [in_envVars|done]. }
  clearbody e2.
  set (e3 := set_if_undefined siteURLEnvVar (VString (site config)) e2).
  destruct (Hstep (VString (site config)) siteURLEnvVar e2) as [E3 H3];
    [in_envVars|done|]. fold e3 in E3, H3. clearbody e3.
  set (e4 := set_if_undefined logLevelEnvVar (VString (logLevel config)) e3).
  destruct (Hstep (VString (logLevel config)) logLevelEnvVar e3) as [E4 H4];
    [in_envVars|done|]. fold e4 in E4, H4. clearbody e4.
  destruct (Hstep (VBoolean (flushMetricsToLogs config)) logForwardingEnvVar e4)
    as [E5 H5]; [in_envVars|done|].
  by rewrite E5, E4, E3, E2, E1.
Qed.

(** C10. Only [NODE] functions are dropped for a malformed handler
    reference: a function whose effective runtime name maps to [PYTHON],
    is undefined, or is not a key of [runtimeLookup] keeps a record in the
    output, at its position, whatever its handler reference is (nothing is
    assumed of [fd_handler]).  The record's type is [PYTHON],
    [UNSUPPORTED], or the library object that [runtimeLookup] inherits
    under the name. *)
Theorem C10_only_node_functions_dropped
    existsSync σ defaultRuntime defaultNodeRuntime service pre name h post :
  functions service = pre ++ (name, h) :: post →
  (effective_runtime σ h defaultRuntime = None
   ∨ ∃ n, effective_runtime σ h defaultRuntime = Some n
          ∧ (runtimeLookup !! n = None ∨ runtimeLookup !! n = Some PYTHON)) →
  let record :=
    {| name := name; type := category_of (effective_runtime σ h defaultRuntime);
       handler := h; runtime := effective_runtime σ h defaultRuntime |} in
  (type record = PYTHON ∨ type record = UNSUPPORTED ∨ ∃ o, type record = VObject o)
  ∧ (∀ n, effective_runtime σ h defaultRuntime = Some n →
          runtimeLookup !! n = Some PYTHON → type record = PYTHON)
  ∧ findHandlers existsSync σ service defaultRuntime defaultNodeRuntime
    = findHandlers existsSync σ (with_functions service pre)
        defaultRuntime defaultNodeRuntime
      ++ record
      :: findHandlers existsSync σ (with_functions service post)
           defaultRuntime defaultNodeRuntime.
Proof.
  intros Hf Hr record.
  pose proof (category_of_cases (effective_runtime σ h defaultRuntime)) as Hc.
  split_and!.
  - subst record. simpl.
    destruct Hr as [Hr|(n & Hr & [Hl|Hl])]; rewrite Hr in *.
    + by right; left.
    + rewrite Hl in Hc. destruct (Object_prototype !! n) as [o|]; rewrite Hc.
      * right; right. by exists o.
      * by right; left.
    + rewrite Hl in Hc. by left.
  - intros n Hn Hl. subst record. simpl. rewrite Hn in *. by rewrite Hl in Hc.
  - eapply findHandlers_keep; [exact Hf|]. apply entry_not_node. intros n Hn Hl.
    destruct Hr as [Hr|(n' & Hr & Hl')]; [congruence|].
    rewrite Hn in Hr. injection Hr as <-. destruct Hl'; congruence.
Qed.

(** ** The properties on sample inputs *)

(** C1 at the runtime name ["constructor"]: the record's type is the
    function [Object], not [UNSUPPORTED]. *)
Lemma C1_witness :
  findHandlers Tests.no_files Inputs.constructor_runtime (Inputs.svc None) None None
  = [{| name := "f"; type := VObject "Object"; handler := 0;
        runtime := Some "constructor" |}]
  ∧ VObject "Object" ≠ UNSUPPORTED.
Proof.
  split; [|discriminate].
  refine (eq_trans
    (proj1 (proj2
      (C1_runtime_outside_the_table Tests.no_files Inputs.constructor_runtime None None
         (Inputs.svc None) [] "f" 0 [] _ _)))
    eq_refl).
  - reflexivity.
  - right. exists "constructor". split; reflexivity.
Defined.

Lemma C2_witness :
  layersOf
    (store_of
       (applyLayers Tests.no_reads "us-east-1" [Inputs.node10]
          (Tests.table "us-east-1" "nodejs10.x" "node:2") (Inputs.with_layers ["node:1"])))
    0
  = Some [VString "node:1"; VString "node:2"].
Proof.
  apply (C2_append_unless_member Tests.no_reads "us-east-1" [] Inputs.node10
           (Tests.table "us-east-1" "nodejs10.x" "node:2") (Inputs.with_layers ["node:1"])
           {[ "nodejs10.x" := Some "node:2" ]} "nodejs10.x" "node:2");
    [reflexivity | discriminate | reflexivity | reflexivity].
Defined.

(** C3, as stated, fails: duplicates that a layer list already has are kept. *)
Lemma C3_counterexample :
  ∃ l,
    layersOf
      (store_of
         (applyLayers Tests.no_reads "us-east-1" [Inputs.node10]
            (Tests.table "us-east-1" "nodejs10.x" "node:2")
            (Inputs.with_layers ["node:1"; "node:1"])))
      0
    = Some l
    ∧ ¬ NoDup l.
Proof.
  exists [VString "node:1"; VString "node:1"; VString "node:2"]. split; [reflexivity|].
  intros [Hnin _]%list.NoDup_cons. apply Hnin, list_elem_of_here.
Qed.

Lemma C3_witness :
  layersOf
    (store_of
       (applyLayers Tests.no_reads "us-east-1" [Inputs.node10]
          (Tests.table "us-east-1" "nodejs10.x" "node:2") (Inputs.with_layers ["node:1"])))
    0
  = Some [VString "node:1"; VString "node:2"]
  ∧ NoDup [VString "node:1"; VString "node:2"].
Proof.
  split; [reflexivity|].
  apply (C3_no_duplicates_preserved Tests.no_reads "us-east-1" [Inputs.node10]
           (Tests.table "us-east-1" "nodejs10.x" "node:2") (Inputs.with_layers ["node:1"]) 0).
  - intros l H. injection H as <-. apply NoDup_singleton.
  - reflexivity.
Defined.

Lemma C4_witness :
  layersOf
    (store_of
       (applyLayers Tests.no_reads "us-east-1" [Inputs.node10; Inputs.node10]
          (Tests.table "us-east-1" "nodejs10.x" "node:2")
          (store_of
             (applyLayers Tests.no_reads "us-east-1" [Inputs.node10; Inputs.node10]
                (Tests.table "us-east-1" "nodejs10.x" "node:2") Inputs.without_layers))))
    0
  = Some [VString "node:2"].
Proof.
  refine (eq_trans
    (proj2 (C4_idempotent Tests.no_reads "us-east-1" [Inputs.node10; Inputs.node10]
              (Tests.table "us-east-1" "nodejs10.x" "node:2") Inputs.without_layers _) 0)
    eq_refl).
  intros d a H. destruct d; discriminate H.
Defined.

(** C5, as stated, fails: the function at identity 1 has one record, which
    is [UNSUPPORTED], and its layer list grows, because it shares its
    array with the function at identity 0. *)
Lemma C5_counterexample :
  type Inputs.record_b = UNSUPPORTED
  ∧ handler Inputs.record_b = 1
  ∧ handler Inputs.record_a = 0
  ∧ layersOf Inputs.shared_array 1 = Some [VString "node:1"]
  ∧ layersOf
      (store_of
         (applyLayers Tests.no_reads "us-east-1" [Inputs.record_a; Inputs.record_b]
            (Tests.table "us-east-1" "nodejs10.x" "node:2") Inputs.shared_array))
      1
    = Some [VString "node:1"; VString "node:2"].
Proof. repeat split; reflexivity. Qed.

Lemma shared_array_wf : store_wf Inputs.shared_array.
Proof.
  intros d a H. destruct d as [|[|d]]; [| |discriminate H];
    injection H as <-; exact Nat.lt_0_1.
Defined.

(** C5, as amended, on the same store: with a record for a third function
    in place of the one for the function at identity 0, the list of the
    function at identity 1 stays. *)
Lemma C5_witness :
  layersOf
    (store_of
       (applyLayers Tests.no_reads "us-east-1" [Inputs.record_c; Inputs.record_b]
          (Tests.table "us-east-1" "nodejs10.x" "node:2") Inputs.shared_array))
    1
  = Some [VString "node:1"].
Proof.
  refine (eq_trans
    (proj1 (C5_untouched_function_unchanged Tests.no_reads "us-east-1"
              [Inputs.record_c; Inputs.record_b]
              (Tests.table "us-east-1" "nodejs10.x" "node:2") Inputs.shared_array 1
              shared_array_wf _))
    eq_refl).
  intros info Hin Htouch.
  apply elem_of_cons in Hin as [->|Hin].
  - destruct Htouch as [Heq|(a & _ & Ha)]; [discriminate Heq|discriminate Ha].
  - apply list_elem_of_singleton in Hin as ->. left. reflexivity.
Defined.

Lemma C6_witness :
  findHandlers Tests.no_files Inputs.node_nodot (Inputs.svc None) None None = [].
Proof.
  apply (C6_malformed_handler_dropped Tests.no_files Inputs.node_nodot None None
           (Inputs.svc None) [] "f" 0 [] "nodejs10.x"); reflexivity.
Defined.

Lemma C7_witness :
  findHandlers Inputs.es_and_ts Inputs.node_lambda
    (Inputs.svc (Some ["serverless-webpack"])) None None
  = [{| name := "f"; type := NODE_TS; handler := 0; runtime := Some "nodejs8.10" |}].
Proof.
  apply (C7_typescript_precedence Inputs.es_and_ts Inputs.node_lambda None None
           (Inputs.svc (Some ["serverless-webpack"])) [] "f" 0 [] "nodejs8.10"
           Inputs.mylambda); reflexivity.
Defined.

Lemma C8_witness :
  findHandlers Tests.no_files Inputs.node_lambda
    (Inputs.svc (Some ["serverless-plugin-datadog"; "serverless-webpack"])) None None
  = [{| name := "f"; type := NODE_ES6; handler := 0; runtime := Some "nodejs8.10" |}].
Proof.
  apply (C8_webpack_defaults_to_es6 Tests.no_files Inputs.node_lambda None None
           (Inputs.svc (Some ["serverless-plugin-datadog"; "serverless-webpack"]))
           [] "f" 0 [] "nodejs8.10" Inputs.mylambda
           ["serverless-plugin-datadog"; "serverless-webpack"]);
    try reflexivity.
  apply list_elem_of_further, list_elem_of_here.
Defined.

Lemma C9_witness :
  default ∅ (environment (provider (setEnvConfiguration defaultConfiguration Inputs.svc_env)))
    !! "DD_SITE"
  = Some (VString "datadoghq.eu").
Proof.
  refine (eq_trans
    (C9_env_only_fills_absent defaultConfiguration Inputs.svc_env "DD_SITE" _) eq_refl).
  right. discriminate.
Defined.

(** C8, as stated, fails: a [NODE] function whose handler reference has no
    dot is dropped, with the plugin listed, no forced dialect and no file. *)
Lemma C8_counterexample :
  effective_runtime Inputs.node_nodot 0 None = Some "nodejs10.x"
  ∧ runtimeLookup !! "nodejs10.x" = Some NODE
  ∧ hasWebpackPlugin (Inputs.svc (Some ["serverless-webpack"])) = true
  ∧ findHandlers Tests.no_files Inputs.node_nodot
      (Inputs.svc (Some ["serverless-webpack"])) None None
    = [].
Proof. repeat split; reflexivity. Qed.

Lemma C10_witness :
  findHandlers Tests.no_files Inputs.python_nodot (Inputs.svc None) None None
  = [{| name := "f"; type := PYTHON; handler := 0; runtime := Some "python3.8" |}].
Proof.
  refine (eq_trans
    (proj2 (proj2
      (C10_only_node_functions_dropped Tests.no_files Inputs.python_nodot None None
         (Inputs.svc None) [] "f" 0 [] _ _)))
    eq_refl).
  - reflexivity.
  - right. exists "python3.8". split; [reflexivity|]. right. reflexivity.
Defined.

(** * Further properties

    ** getHandlerPath *)

Lemma append_assoc (s1 s2 s3 : string) : (s1 +:+ s2) +:+ s3 = s1 +:+ s2 +:+ s3.
Proof.
  induction s1 as [|c s1 IH]; [reflexivity|].
  change (String c ((s1 +:+ s2) +:+ s3) = String c (s1 +:+ s2 +:+ s3)).
  by rewrite IH.
Qed.

Lemma concat_cons sep x y ys :
  String.concat sep (x :: y :: ys) = x +:+ sep +:+ String.concat sep (y :: ys).
Proof. reflexivity. Qed.

Lemma concat_snoc sep init x :
  init ≠ [] → String.concat sep (init ++ [x]) = String.concat sep init +:+ sep +:+ x.
Proof.
  induction init as [|y init IH]; [done|]. intros _.
  destruct init as [|z init]; [done|].
  change ((y :: z :: init) ++ [x]) with (y :: (z :: init) ++ [x]).
  simpl app. rewrite !concat_cons.
  change (z :: init ++ [x]) with ((z :: init) ++ [x]).
  rewrite IH by done. by rewrite !append_assoc.
Qed.

Lemma concat_String_head sep c p ps :
  String.concat sep (String c p :: ps) = String c (String.concat sep (p :: ps)).
Proof. by destruct ps. Qed.

(** [s.split(".").join(".")] is [s]. *)
Lemma join_split s : Util.join "." (Util.split "." s) = s.
Proof.
  unfold Util.join. induction s as [|c s IH]; [done|].
  pose proof (split_nonempty "." s) as Hne.
  change (Util.split "." (String c s))
    with (if Ascii.eqb c "." then "" :: Util.split "." s
          else match Util.split "." s with
               | [] => [String c ""]
               | part :: parts => String c part :: parts
               end).
  destruct (Ascii.eqb c ".") eqn:Hc.
  - apply Ascii.eqb_eq in Hc as ->.
    destruct (Util.split "." s) as [|p ps]; [done|].
    rewrite concat_cons, IH. done.
  - destruct (Util.split "." s) as [|p ps]; [done|].
    by rewrite concat_String_head, IH.
Qed.

(** No part of a split contains the separator. *)
Lemma split_parts_no_dot s : Forall (λ part, has_dot part = false) (Util.split "." s).
Proof.
  induction s as [|c s IH]; simpl; [by repeat constructor|].
  destruct (Ascii.eqb c ".") eqn:Hc; [by constructor|].
  destruct (Util.split "." s) as [|p ps]; [by repeat constructor; simpl; rewrite Hc|].
  apply Forall_cons_1 in IH as [Hp Hps]. constructor; [|done]. simpl. by rewrite Hc, Hp.
Qed.

Lemma removelast_last_parts (parts : list string) :
  parts ≠ [] → parts = List.removelast parts ++ [List.last parts ""].
Proof. intros H. by apply List.app_removelast_last. Qed.

(** X1. A parsed handler reference is the file name, a dot, and the method;
    the method is what follows the last dot, so it contains none. *)
Theorem X1_getHandlerPath_round_trip σ info handlerPath :
  Util.getHandlerPath σ info = Some handlerPath →
  fd_handler (descriptors σ (handler info))
  = Util.filename handlerPath +:+ "." +:+ Util.method handlerPath
  ∧ has_dot (Util.method handlerPath) = false.
Proof.
  unfold Util.getHandlerPath.
  set (s := fd_handler (descriptors σ (handler info))).
  destruct (length (Util.split "." s) <? 2) eqn:Hlen; [done|].
  apply Nat.ltb_ge in Hlen. intros [= <-]. simpl.
  pose proof (split_nonempty "." s) as Hne.
  pose proof (removelast_last_parts _ Hne) as Hparts.
  split.
  - rewrite <-(join_split s) at 1. unfold Util.join.
    rewrite Hparts at 1. apply concat_snoc.
    intros Hnil. rewrite Hparts, Hnil in Hlen. simpl in Hlen. lia.
  - pose proof (split_parts_no_dot s) as Hall.
    rewrite list.Forall_forall in Hall. apply Hall.
    rewrite Hparts at 2. apply elem_of_app. right. apply list_elem_of_here.
Qed.

Lemma X1_witness :
  "src/my.file.handler" = "src/my.file" +:+ "." +:+ "handler"
  ∧ has_dot "handler" = false.
Proof.
  apply (X1_getHandlerPath_round_trip
           (Tests.store1 (Tests.fd "src/my.file.handler" None None) [])
           (Tests.info NODE None)
           {| Util.method := "handler"; Util.filename := "src/my.file" |}).
  reflexivity.
Defined.

(** X2. [getHandlerPath] returns a path exactly for the handler references
    that contain a dot; an empty method or file name is accepted. *)
Theorem X2_getHandlerPath_defined_iff_dot σ info :
  is_Some (Util.getHandlerPath σ info)
  ↔ has_dot (fd_handler (descriptors σ (handler info))) = true.
Proof.
  rewrite <-not_eq_None_Some, getHandlerPath_None. by destruct (has_dot _).
Qed.

(** ** removeDirectory *)

Section RemoveDirectoryFacts.
Variable world : Type.
Variable exists_ : string → world → bool.
Variable readdir : string → world → option (list string).
Variable lstat_isDirectory : string → world → option bool.
Variable unlink : string → world → option world.
Variable rmdir : string → world → option world.

Abbreviation remove :=
  (Util.removeDirectory world exists_ readdir lstat_isDirectory unlink rmdir).
Abbreviation remove_files :=
  (Util.removeDirectory_files world lstat_isDirectory unlink).

Lemma inside_entry path file : inside path (path +:+ "/" +:+ file).
Proof. by exists file. Qed.

Lemma inside_trans path file p :
  inside (path +:+ "/" +:+ file) p → inside path p.
Proof.
  intros [rest ->]. exists (file +:+ "/" +:+ rest).
  by rewrite !append_assoc.
Qed.

(** The loop only makes calls inside [path], if the recursive calls keep to
    their own directory. *)
Lemma remove_files_inside recurse path files w :
  (∀ p w', Forall (λ c, c = Util.Rmdir p ∨ inside p (call_path c)) (recurse p w').1) →
  Forall (λ c, inside path (call_path c)) (remove_files recurse path files w).1.
Proof.
  intros Hrec. revert w. induction files as [|file files IH]; intros w; simpl; [done|].
  destruct (lstat_isDirectory _ w) as [isDirectory|]; [|done].
  set (curPath := path +:+ "/" +:+ file).
  assert (Forall (λ c, inside path (call_path c))
            (if isDirectory then recurse curPath w
             else match unlink curPath w with
                  | Some w' => ([Util.Unlink curPath], Util.Resolved w')
                  | None => ([Util.Unlink curPath], Util.Rejected w)
                  end).1) as Hfirst.
  { destruct isDirectory.
    - eapply list.Forall_impl; [apply Hrec|]. simpl.
      intros c [->|Hin]; [apply inside_entry | by eapply inside_trans].
    - destruct (unlink curPath w); simpl; repeat constructor; apply inside_entry. }
  destruct (if isDirectory then _ else _) as [calls o]. simpl in Hfirst.
  destruct o as [w'| |]; [|done..].
  specialize (IH w'). destruct (remove_files recurse path files w') as [calls' o'].
  simpl in *. by apply Forall_app.
Qed.

Lemma remove_confined fuel path w :
  Forall (λ c, c = Util.Rmdir path ∨ inside path (call_path c)) (remove fuel path w).1.
Proof.
  revert path w. induction fuel as [|fuel IH]; intros path w; simpl; [done|].
  destruct (exists_ path w); [|done].
  destruct (readdir path w) as [files|]; [|done].
  pose proof (remove_files_inside (remove fuel) path files w IH) as Hfiles.
  destruct (remove_files (remove fuel) path files w) as [calls o]. simpl in Hfiles.
  assert (Forall (λ c, c = Util.Rmdir path ∨ inside path (call_path c)) calls) as Hcalls.
  { eapply list.Forall_impl; [exact Hfiles|]. simpl. auto. }
  destruct o as [w'| |]; [|done..].
  destruct (rmdir path w'); simpl; apply Forall_app; split; auto.
Qed.
End RemoveDirectoryFacts.

(** X3. Whatever the file system answers and however far the recursion
    gets, [removeDirectory(path)] only unlinks and removes what is inside
    [path], and [path] itself by [rmdir]. *)
Theorem X3_removeDirectory_confined
    world exists_ readdir lstat_isDirectory unlink rmdir fuel path (w : world) :
  Forall (λ c, c = Util.Rmdir path ∨ inside path (call_path c))
    (Util.removeDirectory world exists_ readdir lstat_isDirectory unlink rmdir
       fuel path w).1.
Proof. apply remove_confined. Qed.

(** X4. When [removeDirectory(path)] resolves, either [path] did not exist
    and nothing was called, or [rmdir(path)] succeeded as the last call,
    after calls that are all inside [path]. *)
Theorem X4_removeDirectory_resolved
    world exists_ readdir lstat_isDirectory unlink rmdir fuel path (w w' : world) calls :
  Util.removeDirectory world exists_ readdir lstat_isDirectory unlink rmdir fuel path w
  = (calls, Util.Resolved w') →
  (exists_ path w = false ∧ calls = [] ∧ w' = w)
  ∨ (exists_ path w = true
     ∧ ∃ calls0 w0,
         calls = calls0 ++ [Util.Rmdir path]
         ∧ rmdir path w0 = Some w'
         ∧ Forall (λ c, inside path (call_path c)) calls0).
Proof.
  destruct fuel as [|fuel]; simpl; [done|].
  destruct (exists_ path w); [|intros [= <- <-]; by left].
  destruct (readdir path w) as [files|]; [|done].
  pose proof (remove_files_inside world lstat_isDirectory unlink
                (Util.removeDirectory world exists_ readdir lstat_isDirectory
                   unlink rmdir fuel)
                path files w
                (remove_confined world exists_ readdir lstat_isDirectory
                   unlink rmdir fuel)) as Hfiles.
  destruct (Util.removeDirectory_files _ _ _ _ _ _ _) as [calls0 o]. simpl in Hfiles.
  destruct o as [w0| |]; [|done..].
  destruct (rmdir path w0) as [w''|] eqn:Hrm; [|done].
  intros [= <- <-]. right. split; [done|]. by exists calls0, w0.
Qed.

Lemma X4_witness :
  (ToyFs.exists_ "dir" 0 = false ∧ [Util.Unlink "dir/a"; Util.Rmdir "dir"] = [] ∧ 2 = 0)
  ∨ (ToyFs.exists_ "dir" 0 = true
     ∧ ∃ calls0 w0,
         [Util.Unlink "dir/a"; Util.Rmdir "dir"] = calls0 ++ [Util.Rmdir "dir"]
         ∧ ToyFs.rmdir "dir" w0 = Some 2
         ∧ Forall (λ c, inside "dir" (call_path c)) calls0).
Proof.
  apply (X4_removeDirectory_resolved nat ToyFs.exists_ ToyFs.readdir
           ToyFs.lstat_isDirectory ToyFs.unlink ToyFs.rmdir 1 "dir" 0 2
           [Util.Unlink "dir/a"; Util.Rmdir "dir"]).
  reflexivity.
Defined.

(** ** findHandlers, further *)

(** X5. [hasWebpackPlugin] holds exactly when the service has a plugin list
    and the exact name ["serverless-webpack"] is in it. *)
Theorem X5_hasWebpackPlugin_iff service :
  hasWebpackPlugin service = true
  ↔ ∃ ps, plugins service = Some ps ∧ "serverless-webpack" ∈ ps.
Proof.
  split; [|intros (ps & Hp & Hin); by eapply hasWebpackPlugin_true].
  unfold hasWebpackPlugin. destruct (plugins service) as [ps|]; [|done].
  intros [p Hp]%bool_decide_eq_true. exists ps. split; [done|].
  apply List.find_some in Hp as [Hin Heq].
  apply String.eqb_eq in Heq as <-. by apply list_elem_of_In.
Qed.

Lemma findHandlers_entry_origin existsSync σ service defaultRuntime defaultNodeRuntime
    n h r :
  findHandlers_entry existsSync σ service defaultRuntime defaultNodeRuntime (n, h)
  = Some r →
  name r = n ∧ handler r = h
  ∧ runtime r = effective_runtime σ h defaultRuntime.
Proof.
  rewrite entry_unfold. cbv zeta.
  destruct (decide (category_of _ = NODE)); [|by intros [= <-]].
  destruct (Util.getHandlerPath _ _) as [hp|]; [|done].
  destruct defaultNodeRuntime; by intros [= <-].
Qed.

(** X6. Functions are classified one by one: the records of a list of
    functions are the records of its first part followed by those of the
    rest. *)
Theorem X6_findHandlers_app existsSync σ service defaultRuntime defaultNodeRuntime fs1 fs2 :
  findHandlers existsSync σ (with_functions service (fs1 ++ fs2))
    defaultRuntime defaultNodeRuntime
  = findHandlers existsSync σ (with_functions service fs1) defaultRuntime defaultNodeRuntime
    ++ findHandlers existsSync σ (with_functions service fs2)
         defaultRuntime defaultNodeRuntime.
Proof. unfold findHandlers. simpl. apply omap_app. Qed.

(** X7. The records come in the order of the declared functions, at most one
    per function, each under its function's name and definition. *)
Theorem X7_findHandlers_order existsSync σ service defaultRuntime defaultNodeRuntime :
  let records := findHandlers existsSync σ service defaultRuntime defaultNodeRuntime in
  sublist ((λ r, (name r, handler r)) <$> records) (functions service)
  ∧ length records ≤ length (functions service).
Proof.
  cbv zeta.
  assert (sublist ((λ r, (name r, handler r)) <$>
                     findHandlers existsSync σ service defaultRuntime defaultNodeRuntime)
            (functions service)) as Hsub.
  { unfold findHandlers.
    set (f := findHandlers_entry existsSync σ service defaultRuntime defaultNodeRuntime).
    assert (∀ n h r, f (n, h) = Some r → name r = n ∧ handler r = h) as Hf.
    { intros n h r He. by apply findHandlers_entry_origin in He as (? & ? & _). }
    clearbody f.
    induction (functions service) as [|[n h] fs IH]; [constructor|].
    simpl. destruct (f (n, h)) as [r|] eqn:He.
    - apply Hf in He as [<- <-]. simpl. by apply sublist_skip.
    - by apply sublist_cons. }
  split; [exact Hsub|].
  apply sublist_length in Hsub. by rewrite length_fmap in Hsub.
Qed.

Lemma findHandlers_entry_category existsSync σ service defaultRuntime defaultNodeRuntime
    e r :
  (∀ t : RuntimeType, defaultNodeRuntime = Some t → node_dialect t) →
  findHandlers_entry existsSync σ service defaultRuntime defaultNodeRuntime e = Some r →
  if decide (category_of (runtime r) = NODE) then node_dialect (type r)
  else type r = category_of (runtime r).
Proof.
  intros Hforced. destruct e as [n h]. rewrite entry_unfold. cbv zeta.
  destruct (decide (category_of (effective_runtime σ h defaultRuntime) = NODE))
    as [Hc|Hc].
  - destruct (Util.getHandlerPath _ _) as [hp|]; [|done].
    destruct defaultNodeRuntime as [t|].
    + intros [= <-]. simpl. rewrite decide_True by done. by apply Hforced.
    + intros [= <-]. simpl. rewrite decide_True by done. unfold node_dialect.
      repeat match goal with
             | |- context [if ?b then _ else _] => destruct b
             end; auto.
  - intros [= <-]. simpl. by rewrite decide_False.
Qed.

(** X8. Every record names a declared function, carries that function's
    effective runtime name, and has the type of that name: [UNSUPPORTED]
    when it is undefined, a Node dialect when [runtimeLookup] says [NODE],
    the table's category for its other keys, the inherited library object
    for a name that only [Object.prototype] has, and [UNSUPPORTED] for
    every other name.  [defaultNodeRuntime], when given, is one of the
    three Node dialects, as its type declares. *)
Theorem X8_findHandlers_records existsSync σ service defaultRuntime defaultNodeRuntime r :
  (∀ t : RuntimeType, defaultNodeRuntime = Some t → node_dialect t) →
  r ∈ findHandlers existsSync σ service defaultRuntime defaultNodeRuntime →
  (name r, handler r) ∈ functions service
  ∧ runtime r = effective_runtime σ (handler r) defaultRuntime
  ∧ match runtime r with
    | None => type r = UNSUPPORTED
    | Some n =>
        match runtimeLookup !! n with
        | Some NODE => node_dialect (type r)
        | Some t => type r = RuntimeType_value t
        | None =>
            match Object_prototype !! n with
            | Some o => type r = VObject o
            | None => type r = UNSUPPORTED
            end
        end
    end.
Proof.
  intros Hforced. unfold findHandlers.
  intros ([n h] & Hin & He)%list_elem_of_omap.
  pose proof (findHandlers_entry_origin _ _ _ _ _ _ _ _ He) as (Hn & Hh & Hr).
  split_and!.
  - by rewrite Hn, Hh.
  - by rewrite Hh.
  - pose proof (findHandlers_entry_category _ _ _ _ _ _ _ Hforced He) as Hcat.
    pose proof (category_of_cases (runtime r)) as Hc.
    destruct (runtime r) as [rt|]; cycle 1.
    { rewrite Hc in Hcat. by rewrite decide_False in Hcat. }
    destruct (runtimeLookup !! rt) as [t|].
    + rewrite Hc in Hcat. destruct t;
        [by rewrite decide_True in Hcat|by rewrite decide_False in Hcat..].
    + destruct (Object_prototype !! rt); rewrite Hc in Hcat;
        by rewrite decide_False in Hcat.
Qed.

Lemma X8_witness :
  ("f", 0) ∈ functions (Inputs.svc None)
  ∧ Some "constructor" = effective_runtime Inputs.constructor_runtime 0 None
  ∧ VObject "Object" = VObject "Object".
Proof.
  apply (X8_findHandlers_records Tests.no_files Inputs.constructor_runtime
           (Inputs.svc None) None None
           {| name := "f"; type := VObject "Object"; handler := 0;
              runtime := Some "constructor" |}).
  - intros t H. discriminate H.
  - apply list_elem_of_here.
Defined.

(** X9. A forced dialect is applied as it is: a [NODE] function with a
    well-formed handler reference gets the type [defaultNodeRuntime]. *)
Theorem X9_forced_dialect_applied
    existsSync σ defaultRuntime service pre name h post n t :
  functions service = pre ++ (name, h) :: post →
  effective_runtime σ h defaultRuntime = Some n →
  runtimeLookup !! n = Some NODE →
  has_dot (fd_handler (descriptors σ h)) = true →
  findHandlers existsSync σ service defaultRuntime (Some t)
  = findHandlers existsSync σ (with_functions service pre) defaultRuntime (Some t)
    ++ {| name := name; type := t; handler := h; runtime := Some n |}
    :: findHandlers existsSync σ (with_functions service post) defaultRuntime (Some t).
Proof.
  intros Hf Hr Hl Hd. eapply findHandlers_keep; [exact Hf|].
  rewrite (entry_node _ _ _ _ _ _ _ _ Hr Hl). cbv zeta.
  destruct (Util.getHandlerPath σ _) as [hp|] eqn:Hp; [done|].
  apply getHandlerPath_None in Hp. simpl in Hp. congruence.
Qed.

Lemma X9_witness :
  findHandlers (Tests.only "./mylambda.js") Inputs.node_lambda (Inputs.svc None)
    None (Some NODE_TS)
  = [{| name := "f"; type := NODE_TS; handler := 0; runtime := Some "nodejs8.10" |}].
Proof.
  apply (X9_forced_dialect_applied (Tests.only "./mylambda.js") Inputs.node_lambda None
           (Inputs.svc None) [] "f" 0 [] "nodejs8.10" NODE_TS); reflexivity.
Defined.

(** X10. With a forced dialect neither the file system nor the plugin list
    is looked at: the records are the same whatever they are. *)
Theorem X10_forced_dialect_ignores_probes
    existsSync existsSync' σ service ps defaultRuntime t :
  findHandlers existsSync σ service defaultRuntime (Some t)
  = findHandlers existsSync' σ (with_plugins service ps) defaultRuntime (Some t).
Proof.
  unfold findHandlers. simpl. apply list_omap_ext, Forall2_same_length_lookup.
  split; [done|]. intros i [n h] e' H1 H2. rewrite H1 in H2. injection H2 as <-.
  unfold findHandlers_entry. by repeat case_match.
Qed.

(** X11. With no forced dialect, the type of a [NODE] function with a parsed
    handler reference is decided by the probes alone: [NODE_TS] if the
    [.ts] file exists, else [NODE_ES6] if the [.es.js] or the [.mjs] file
    exists or the webpack plugin is listed, else [NODE]. *)
Theorem X11_node_dialect_table
    (existsSync : string → bool) σ defaultRuntime service pre name h post n handlerPath :
  functions service = pre ++ (name, h) :: post →
  effective_runtime σ h defaultRuntime = Some n →
  runtimeLookup !! n = Some NODE →
  Util.getHandlerPath σ {| name := name; type := NODE; handler := h; runtime := Some n |}
  = Some handlerPath →
  let file ext := existsSync ("./" +:+ Util.filename handlerPath +:+ ext) in
  let type :=
    if file ".ts" then NODE_TS
    else if file ".es.js" || file ".mjs" || hasWebpackPlugin service then NODE_ES6
    else NODE in
  findHandlers existsSync σ service defaultRuntime None
  = findHandlers existsSync σ (with_functions service pre) defaultRuntime None
    ++ {| name := name; type := type; handler := h; runtime := Some n |}
    :: findHandlers existsSync σ (with_functions service post) defaultRuntime None.
Proof.
  intros Hf Hr Hl Hp. cbv zeta. eapply findHandlers_keep; [exact Hf|].
  rewrite (entry_node _ _ _ _ _ _ _ _ Hr Hl). cbv zeta. by rewrite Hp.
Qed.

Lemma X11_witness :
  findHandlers (Tests.only "./mylambda.mjs") Inputs.node_lambda (Inputs.svc None) None None
  = [{| name := "f"; type := NODE_ES6; handler := 0; runtime := Some "nodejs8.10" |}].
Proof.
  apply (X11_node_dialect_table (Tests.only "./mylambda.mjs") Inputs.node_lambda None
           (Inputs.svc None) [] "f" 0 [] "nodejs8.10" Inputs.mylambda); reflexivity.
Defined.

(** ** applyLayers, further *)

Section IterationFurther.
Variable library_get : string → string → option value.
Variable regionRuntimes : RegionRuntimes.

Abbreviation iter := (step library_get regionRuntimes).

(** An iteration writes the [layers] field only. *)
Lemma iter_other_fields σ info d :
  fd_handler (descriptors (iter σ info) d) = fd_handler (descriptors σ d)
  ∧ fd_runtime (descriptors (iter σ info) d) = fd_runtime (descriptors σ d).
Proof.
  destruct (iter_cases library_get regionRuntimes σ info)
    as [->|[(arn & a & _ & _ & ->)|(arn & _ & _ & ->)]]; [done| |];
    unfold setLayers; simpl; unfold insert, fn_insert;
    destruct (decide (handler info = d)) as [<-|]; simpl;
    try done; by destruct (bool_decide _).
Qed.

Lemma foldl_other_fields σ handlers d :
  fd_handler (descriptors (foldl iter σ handlers) d) = fd_handler (descriptors σ d)
  ∧ fd_runtime (descriptors (foldl iter σ handlers) d) = fd_runtime (descriptors σ d).
Proof.
  revert σ. induction handlers as [|info handlers IH]; intros σ; [done|].
  simpl. destruct (IH (iter σ info)) as [-> ->]. apply iter_other_fields.
Qed.

(** An iteration appends at most its own identifier to a function's list;
    an absent list counts as empty. *)
Lemma iter_appends σ info d :
  store_wf σ →
  ∃ added,
    default [] (layersOf (iter σ info) d) = default [] (layersOf σ d) ++ added
    ∧ (added = []
       ∨ type info ≠ UNSUPPORTED ∧ resolve library_get regionRuntimes info = head added
         ∧ length added = 1).
Proof.
  intros Hwf. unfold layersOf.
  destruct (decide (type info = UNSUPPORTED)) as [Ht|Ht].
  { rewrite iter_skip by (by left). exists []. by rewrite app_nil_r; auto. }
  destruct (resolve library_get regionRuntimes info) as [arn|] eqn:Hr; cycle 1.
  { rewrite iter_skip by (by right). exists []. by rewrite app_nil_r; auto. }
  destruct (fd_layers (descriptors σ (handler info))) as [a|] eqn:Ha.
  - rewrite (iter_present _ _ _ _ arn a) by done. rewrite setLayers_fd_layers.
    assert (fd_layers (descriptors σ d)
            = if decide (handler info = d) then Some a else fd_layers (descriptors σ d))
      as Hsame by (case_decide; congruence).
    destruct (bool_decide (arn ∈ arrays σ a)).
    + exists []. rewrite app_nil_r, <-Hsame. auto.
    + simpl. rewrite <-Hsame.
      destruct (fd_layers (descriptors σ d)) as [a'|]; simpl;
        [|exists []; by auto].
      destruct (decide (a = a')) as [<-|Hne].
      * rewrite fn_lookup_insert. exists [arn]. split; [done|]. by right.
      * rewrite fn_lookup_insert_ne by done. exists []. by rewrite app_nil_r; auto.
  - rewrite (iter_absent _ _ _ _ arn) by done. rewrite setLayers_fd_layers. simpl.
    destruct (decide (handler info = d)) as [<-|Hne].
    + rewrite Ha. simpl. rewrite !fn_lookup_insert.
      exists [arn]. split; [done|]. by right.
    + destruct (fd_layers (descriptors σ d)) as [a'|] eqn:Ha'; simpl;
        [|exists []; by auto].
      apply Hwf in Ha'. rewrite !fn_lookup_insert_ne by lia.
      exists []. by rewrite app_nil_r; auto.
Qed.

Lemma foldl_appends σ handlers d :
  store_wf σ →
  ∃ added,
    default [] (layersOf (foldl iter σ handlers) d) = default [] (layersOf σ d) ++ added
    ∧ ∀ x, x ∈ added →
        ∃ info, info ∈ handlers ∧ type info ≠ UNSUPPORTED
                ∧ resolve library_get regionRuntimes info = Some x.
Proof.
  revert σ. induction handlers as [|info handlers IH]; intros σ Hwf; simpl.
  { exists []. rewrite app_nil_r. split; [done|]. by intros x ?%elem_of_nil. }
  destruct (iter_appends σ info d Hwf) as (a1 & E1 & H1).
  destruct (IH (iter σ info) (iter_wf _ _ _ _ Hwf)) as (a2 & E2 & H2).
  exists (a1 ++ a2). split; [by rewrite E2, E1, app_assoc|].
  intros x [Hx|Hx]%elem_of_app.
  - destruct H1 as [->|(Ht & Hr & Hlen)]; [by apply elem_of_nil in Hx|].
    destruct a1 as [|y [|? ?]]; simpl in *; try lia.
    apply list_elem_of_singleton in Hx as ->.
    exists info. split_and!; [apply list_elem_of_here|done..].
  - destruct (H2 x Hx) as (info' & Hin & Ht & Hr).
    exists info'. split_and!; [by apply list_elem_of_further|done..].
Qed.

(** An iteration makes no two function definitions share an array that
    they did not share before. *)
Lemma iter_no_new_sharing σ info d1 d2 a :
  store_wf σ → d1 ≠ d2 →
  fd_layers (descriptors (iter σ info) d1) = Some a →
  fd_layers (descriptors (iter σ info) d2) = Some a →
  fd_layers (descriptors σ d1) = Some a ∧ fd_layers (descriptors σ d2) = Some a.
Proof.
  intros Hwf Hne.
  destruct (iter_cases library_get regionRuntimes σ info)
    as [->|[(arn & a0 & _ & Ha & ->)|(arn & _ & Ha & ->)]]; [done| |];
    rewrite !setLayers_fd_layers.
  - assert (∀ d, (if decide (handler info = d) then Some a0
                  else fd_layers
                         (descriptors
                            (if bool_decide (arn ∈ arrays σ a0) then σ
                             else push a0 arn σ) d))
                 = fd_layers (descriptors σ d)) as Hsame.
    { intros d. destruct (bool_decide _); case_decide; simpl; congruence. }
    by rewrite !Hsame.
  - simpl.
    destruct (decide (handler info = d1)) as [E1|N1];
      destruct (decide (handler info = d2)) as [E2|N2]; [congruence| | |done].
    + intros [= <-] H2. apply Hwf in H2. lia.
    + intros H1 [= <-]. apply Hwf in H1. lia.
Qed.

Lemma foldl_no_new_sharing σ handlers d1 d2 a :
  store_wf σ → d1 ≠ d2 →
  fd_layers (descriptors (foldl iter σ handlers) d1) = Some a →
  fd_layers (descriptors (foldl iter σ handlers) d2) = Some a →
  fd_layers (descriptors σ d1) = Some a ∧ fd_layers (descriptors σ d2) = Some a.
Proof.
  revert σ. induction handlers as [|info handlers IH]; intros σ Hwf Hne; [done|].
  simpl. intros H1 H2.
  destruct (IH (iter σ info) (iter_wf _ _ _ _ Hwf) Hne H1 H2) as [H1' H2'].
  by apply (iter_no_new_sharing σ info).
Qed.
End IterationFurther.

Lemma applyLayers_other_fields library_get region handlers layers σ d :
  fd_handler (descriptors (store_of (applyLayers library_get region handlers layers σ)) d)
  = fd_handler (descriptors σ d)
  ∧ fd_runtime (descriptors (store_of (applyLayers library_get region handlers layers σ)) d)
    = fd_runtime (descriptors σ d).
Proof.
  destruct (regions_get layers region) as [regionRuntimes|] eqn:Hreg;
    [|by rewrite applyLayers_unknown_region].
  rewrite (applyLayers_store _ _ _ _ _ _ Hreg). apply foldl_other_fields.
Qed.

(** X12. [applyLayers] writes the [layers] field only: the handler reference
    and the declared runtime of every function definition stay as they
    were. *)
Theorem X12_applyLayers_other_fields library_get region handlers layers σ d :
  fd_handler (descriptors (store_of (applyLayers library_get region handlers layers σ)) d)
  = fd_handler (descriptors σ d)
  ∧ fd_runtime (descriptors (store_of (applyLayers library_get region handlers layers σ)) d)
    = fd_runtime (descriptors σ d).
Proof. apply applyLayers_other_fields. Qed.

Lemma findHandlers_same_fields existsSync σ σ' service defaultRuntime defaultNodeRuntime :
  (∀ d, fd_handler (descriptors σ' d) = fd_handler (descriptors σ d)
        ∧ fd_runtime (descriptors σ' d) = fd_runtime (descriptors σ d)) →
  findHandlers existsSync σ' service defaultRuntime defaultNodeRuntime
  = findHandlers existsSync σ service defaultRuntime defaultNodeRuntime.
Proof.
  intros H. unfold findHandlers. apply list_omap_ext, Forall2_same_length_lookup.
  split; [done|]. intros i [n h] e' H1 H2. rewrite H1 in H2. injection H2 as <-.
  unfold findHandlers_entry, Util.getHandlerPath. simpl.
  by destruct (H h) as [-> ->].
Qed.

(** X13. Classification does not depend on the layers: classifying after a
    merge pass gives the records of classifying before it. *)
Theorem X13_findHandlers_after_applyLayers
    existsSync σ service defaultRuntime defaultNodeRuntime library_get region handlers layers :
  findHandlers existsSync (store_of (applyLayers library_get region handlers layers σ))
    service defaultRuntime defaultNodeRuntime
  = findHandlers existsSync σ service defaultRuntime defaultNodeRuntime.
Proof.
  apply findHandlers_same_fields. intros d. apply applyLayers_other_fields.
Qed.

Lemma foldl_keeps_array library_get regionRuntimes σ handlers d a :
  store_wf σ →
  fd_layers (descriptors σ d) = Some a →
  fd_layers (descriptors (foldl (step library_get regionRuntimes) σ handlers) d) = Some a.
Proof.
  revert σ. induction handlers as [|info handlers IH]; intros σ Hwf Ha; [done|].
  simpl. apply IH; [by apply iter_wf|].
  by destruct (iter_grows library_get regionRuntimes σ info d a Hwf Ha).
Qed.

Lemma with_layers_wf l : store_wf (Inputs.with_layers l).
Proof.
  intros d a H. destruct d; [|discriminate H].
  injection H as <-. exact Nat.lt_0_1.
Defined.

Lemma without_layers_wf : store_wf Inputs.without_layers.
Proof. intros d a H. destruct d; discriminate H. Defined.

(** X14. A merge pass is append-only: a function's layer list after the
    pass is its list before (empty if absent) followed by values that
    [regionRuntimes[runtime]] reads for records of the pass that are not
    [UNSUPPORTED], and a list that was present is still present. *)
Theorem X14_applyLayers_append_only library_get region handlers layers σ d :
  store_wf σ →
  let σ' := store_of (applyLayers library_get region handlers layers σ) in
  (is_Some (layersOf σ d) → is_Some (layersOf σ' d))
  ∧ ∃ added,
      default [] (layersOf σ' d) = default [] (layersOf σ d) ++ added
      ∧ ∀ x, x ∈ added →
          x ≠ VUndefined
          ∧ ∃ regionRuntimes info r,
              regions_get layers region = Some regionRuntimes
              ∧ info ∈ handlers ∧ type info ≠ UNSUPPORTED
              ∧ runtime info = Some r
              ∧ regionRuntimes_get library_get regionRuntimes r = Some x.
Proof.
  intros Hwf. cbv zeta.
  destruct (regions_get layers region) as [regionRuntimes|] eqn:Hreg; cycle 1.
  { rewrite applyLayers_unknown_region by done. simpl.
    split; [done|]. exists []. rewrite app_nil_r. split; [done|].
    by intros x ?%elem_of_nil. }
  rewrite (applyLayers_store _ _ _ _ _ _ Hreg).
  split.
  - unfold layersOf. destruct (fd_layers (descriptors σ d)) as [a|] eqn:Ha;
      [|by intros [? ?]].
    intros _. by rewrite (foldl_keeps_array _ _ _ _ _ _ Hwf Ha).
  - destruct (foldl_appends library_get regionRuntimes σ
                (executed library_get regionRuntimes handlers) d Hwf)
      as (added & E & H).
    exists added. split; [done|]. intros x Hx.
    destruct (H x Hx) as (info & Hin & Ht & (r & Hr & Hget & Hdef)%resolve_Some).
    split; [done|]. exists regionRuntimes, info, r.
    split_and!; try done. by eapply executed_elem_of.
Qed.

Lemma X14_witness :
  let σ' :=
    store_of
      (applyLayers Tests.no_reads "us-east-1" [Tests.info NODE (Some "constructor")]
         (Tests.table "us-east-1" "nodejs10.x" "node:2") (Inputs.with_layers ["node:1"])) in
  (is_Some (layersOf (Inputs.with_layers ["node:1"]) 0) → is_Some (layersOf σ' 0))
  ∧ ∃ added,
      default [] (layersOf σ' 0)
      = default [] (layersOf (Inputs.with_layers ["node:1"]) 0) ++ added
      ∧ ∀ x, x ∈ added →
          x ≠ VUndefined
          ∧ ∃ regionRuntimes info r,
              regions_get (Tests.table "us-east-1" "nodejs10.x" "node:2") "us-east-1"
              = Some regionRuntimes
              ∧ info ∈ [Tests.info NODE (Some "constructor")] ∧ type info ≠ UNSUPPORTED
              ∧ runtime info = Some r
              ∧ regionRuntimes_get Tests.no_reads regionRuntimes r = Some x.
Proof.
  exact (X14_applyLayers_append_only Tests.no_reads "us-east-1"
           [Tests.info NODE (Some "constructor")]
           (Tests.table "us-east-1" "nodejs10.x" "node:2") (Inputs.with_layers ["node:1"]) 0
           (with_layers_wf ["node:1"])).
Defined.

Lemma applyLayers_merged_have_layer
    library_get region handlers layers σ regionRuntimes info r layerARN :
  store_wf σ →
  own_entry (regions layers) region = Some regionRuntimes →
  info ∈ handlers →
  type info ≠ UNSUPPORTED →
  runtime info = Some r →
  own_entry regionRuntimes r = Some layerARN →
  ∃ l, layersOf (store_of (applyLayers library_get region handlers layers σ))
         (handler info) = Some l
       ∧ VString layerARN ∈ l.
Proof.
  intros Hwf Hreg Hin Ht Hr Harn.
  rewrite (applyLayers_table _ _ _ _ _ _ Hreg). simpl.
  pose proof (foldl_settles library_get (Table regionRuntimes) σ handlers Hwf) as Hall.
  rewrite list.Forall_forall in Hall. specialize (Hall info Hin).
  pose proof (resolve_own library_get _ _ _ _ Hr Harn) as Hres.
  destruct Hall as [?|[Hnone|(arn & a & Hres' & Ha & Hmem)]]; [done|by simplify_eq|].
  exists (arrays (foldl (step library_get (Table regionRuntimes)) σ handlers) a).
  unfold layersOf. rewrite Ha. split; [done|]. by simplify_eq.
Qed.

(** X15. After a merge pass, every record of the pass that is not
    [UNSUPPORTED] and whose runtime has an entry in the region's table has
    that entry in its function's layer list. *)
Theorem X15_applyLayers_merges_all
    library_get region handlers layers σ regionRuntimes info r layerARN :
  store_wf σ →
  own_entry (regions layers) region = Some regionRuntimes →
  info ∈ handlers →
  type info ≠ UNSUPPORTED →
  runtime info = Some r →
  own_entry regionRuntimes r = Some layerARN →
  ∃ l, layersOf (store_of (applyLayers library_get region handlers layers σ))
         (handler info) = Some l
       ∧ VString layerARN ∈ l.
Proof. apply applyLayers_merged_have_layer. Qed.

Lemma X15_witness :
  ∃ l,
    layersOf
      (store_of
         (applyLayers Tests.no_reads "us-east-1"
            [Tests.info UNSUPPORTED None; Inputs.node10]
            (Tests.table "us-east-1" "nodejs10.x" "node:2") Inputs.without_layers))
      (handler Inputs.node10)
    = Some l
    ∧ VString "node:2" ∈ l.
Proof.
  apply (X15_applyLayers_merges_all Tests.no_reads "us-east-1"
           [Tests.info UNSUPPORTED None; Inputs.node10]
           (Tests.table "us-east-1" "nodejs10.x" "node:2") Inputs.without_layers
           {[ "nodejs10.x" := Some "node:2" ]} Inputs.node10 "nodejs10.x" "node:2").
  - exact without_layers_wf.
  - reflexivity.
  - apply list_elem_of_further, list_elem_of_here.
  - discriminate.
  - reflexivity.
  - reflexivity.
Defined.

(** X16. A merge pass creates no sharing: two function definitions that have
    the same layer array after the pass had that same array before it. *)
Theorem X16_applyLayers_no_new_sharing library_get region handlers layers σ d1 d2 a :
  store_wf σ →
  d1 ≠ d2 →
  fd_layers (descriptors (store_of (applyLayers library_get region handlers layers σ)) d1)
  = Some a →
  fd_layers (descriptors (store_of (applyLayers library_get region handlers layers σ)) d2)
  = Some a →
  fd_layers (descriptors σ d1) = Some a ∧ fd_layers (descriptors σ d2) = Some a.
Proof.
  intros Hwf Hne.
  destruct (regions_get layers region) as [regionRuntimes|] eqn:Hreg;
    [|by rewrite applyLayers_unknown_region].
  rewrite (applyLayers_store _ _ _ _ _ _ Hreg). by apply foldl_no_new_sharing.
Qed.

Lemma X16_witness :
  fd_layers (descriptors Inputs.shared_array 0) = Some 0
  ∧ fd_layers (descriptors Inputs.shared_array 1) = Some 0.
Proof.
  apply (X16_applyLayers_no_new_sharing Tests.no_reads "us-east-1"
           [Inputs.record_a; Inputs.record_c]
           (Tests.table "us-east-1" "nodejs10.x" "node:2") Inputs.shared_array 0 1 0).
  - exact shared_array_wf.
  - discriminate.
  - reflexivity.
  - reflexivity.
Defined.

(** X17. A function definition keeps its layer list through a whole pass
    when every record of the pass that is about it, or about a definition
    sharing its array, is one the code skips: it is [UNSUPPORTED], or has
    no runtime name, or [layers.regions[region]] is [undefined], or the
    read [regionRuntimes[runtime]] gives [undefined] or throws.  Inherited
    properties count in both reads. *)
Theorem X17_applyLayers_frame library_get region handlers layers σ d :
  store_wf σ →
  (∀ info, info ∈ handlers → touches σ info d →
     type info = UNSUPPORTED
     ∨ runtime info = None
     ∨ regions_get layers region = None
     ∨ ∃ regionRuntimes r,
         regions_get layers region = Some regionRuntimes
         ∧ runtime info = Some r
         ∧ (regionRuntimes_get library_get regionRuntimes r = Some VUndefined
            ∨ regionRuntimes_get library_get regionRuntimes r = None)) →
  descriptors (store_of (applyLayers library_get region handlers layers σ)) d
  = descriptors σ d
  ∧ layersOf (store_of (applyLayers library_get region handlers layers σ)) d
    = layersOf σ d.
Proof.
  intros Hwf H. apply applyLayers_frame; [done|].
  intros regionRuntimes info Hreg Hin [Ht [arn Hres]] Htouch.
  apply resolve_Some in Hres as (r & Hr & Hget & Hdef).
  destruct (H info Hin Htouch) as [?|[Hr'|[Hnone|(rr & r' & Hreg' & Hr' & Hget')]]];
    [done|by simplify_eq|by simplify_eq|].
  simplify_eq. by destruct Hget'; simplify_eq.
Qed.

Lemma X17_witness :
  descriptors
    (store_of
       (applyLayers Tests.no_reads "eu-west-9" [Inputs.record_a; Inputs.record_b]
          (Tests.table "us-east-1" "nodejs10.x" "node:2") Inputs.shared_array)) 0
  = descriptors Inputs.shared_array 0
  ∧ layersOf
      (store_of
         (applyLayers Tests.no_reads "eu-west-9" [Inputs.record_a; Inputs.record_b]
            (Tests.table "us-east-1" "nodejs10.x" "node:2") Inputs.shared_array)) 0
    = layersOf Inputs.shared_array 0.
Proof.
  apply (X17_applyLayers_frame Tests.no_reads "eu-west-9"
           [Inputs.record_a; Inputs.record_b]
           (Tests.table "us-east-1" "nodejs10.x" "node:2") Inputs.shared_array 0).
  - exact shared_array_wf.
  - intros info Hin Htouch. right; right; left. reflexivity.
Defined.

(** X18. One pass over two lists of records is a pass over the first
    followed by a pass over the second, as two calls in sequence go: the
    second runs on the objects the first leaves, if the first returns. *)
Theorem X18_applyLayers_app library_get region handlers1 handlers2 layers σ :
  applyLayers library_get region (handlers1 ++ handlers2) layers σ
  = and_then (applyLayers library_get region handlers1 layers σ)
      (applyLayers library_get region handlers2 layers)
  ∧ ∀ σ1, applyLayers library_get region handlers1 layers σ = Returns σ1 →
          applyLayers library_get region (handlers1 ++ handlers2) layers σ
          = applyLayers library_get region handlers2 layers σ1.
Proof.
  assert (applyLayers library_get region (handlers1 ++ handlers2) layers σ
          = and_then (applyLayers library_get region handlers1 layers σ)
              (applyLayers library_get region handlers2 layers)) as Happ.
  { unfold applyLayers. destruct (regions_get layers region); [|done].
    apply loop_app. }
  split; [exact Happ|]. intros σ1 H1. by rewrite Happ, H1.
Qed.

(** X26. A pass returns, having looked at every record, unless the name of
    the region is one that [layers.regions] inherits from
    [Object.prototype]: no read on a table of the file throws. *)
Theorem X26_applyLayers_returns library_get region handlers layers σ :
  is_Some (regions layers !! region) ∨ Object_prototype !! region = None →
  ∃ σ', applyLayers library_get region handlers layers σ = Returns σ'
        ∧ ∀ regionRuntimes,
            regions_get layers region = Some regionRuntimes →
            σ' = foldl (step library_get regionRuntimes) σ handlers.
Proof.
  intros H. unfold applyLayers, regions_get.
  destruct (regions layers !! region) as [[table|]|] eqn:Hown; simpl.
  - exists (foldl (step library_get (Table table)) σ handlers).
    split; [apply loop_returns, executed_Table|]. by intros rr [= <-].
  - by exists σ.
  - destruct H as [[? ?]|Hproto]; [done|]. rewrite Hproto. by exists σ.
Qed.

Lemma X26_witness :
  ∃ σ',
    applyLayers Tests.no_reads "us-east-1" [Tests.info NODE (Some "constructor")]
      (Tests.table "us-east-1" "nodejs10.x" "node:2") Inputs.without_layers
    = Returns σ'
    ∧ ∀ regionRuntimes,
        regions_get (Tests.table "us-east-1" "nodejs10.x" "node:2") "us-east-1"
        = Some regionRuntimes →
        σ' = foldl (step Tests.no_reads regionRuntimes) Inputs.without_layers
               [Tests.info NODE (Some "constructor")].
Proof.
  apply (X26_applyLayers_returns Tests.no_reads "us-east-1"
           [Tests.info NODE (Some "constructor")]
           (Tests.table "us-east-1" "nodejs10.x" "node:2") Inputs.without_layers).
  left. by eexists.
Defined.

(** X19. Classifying and then merging reaches every declared function that
    can be served: if its effective runtime is in [runtimeLookup] and has an
    entry in the region's table (and, for a [NODE] runtime, its handler
    reference has a dot), then after
    [applyLayers(region, findHandlers(...), layers)] that entry is in the
    function's layer list. *)
Theorem X19_classify_then_merge
    existsSync σ service defaultRuntime defaultNodeRuntime library_get region layers
    regionRuntimes name h n layerARN :
  store_wf σ →
  (∀ t : RuntimeType, defaultNodeRuntime = Some t → node_dialect t) →
  (name, h) ∈ functions service →
  effective_runtime σ h defaultRuntime = Some n →
  is_Some (runtimeLookup !! n) →
  (runtimeLookup !! n = Some NODE → has_dot (fd_handler (descriptors σ h)) = true) →
  own_entry (regions layers) region = Some regionRuntimes →
  own_entry regionRuntimes n = Some layerARN →
  ∃ l,
    layersOf
      (store_of
         (applyLayers library_get region
            (findHandlers existsSync σ service defaultRuntime defaultNodeRuntime)
            layers σ))
      h
    = Some l
    ∧ VString layerARN ∈ l.
Proof.
  intros Hwf Hforced Hin Hr [ty Hl] Hdot Hreg Harn.
  assert (∃ r, findHandlers_entry existsSync σ service defaultRuntime defaultNodeRuntime
                 (name, h) = Some r) as [r He].
  { destruct (decide (ty = NODE)) as [->|Hty].
    - rewrite (entry_node _ _ _ _ _ _ _ _ Hr Hl). cbv zeta.
      destruct (Util.getHandlerPath σ _) as [hp|] eqn:Hp.
      + destruct defaultNodeRuntime; eauto.
      + apply getHandlerPath_None in Hp. simpl in Hp. rewrite Hdot in Hp; done.
    - rewrite (entry_supported _ _ _ _ _ _ _ _ _ Hr Hl Hty). eauto. }
  pose proof (findHandlers_entry_origin _ _ _ _ _ _ _ _ He) as (_ & Hh & Hrt).
  pose proof (findHandlers_entry_category _ _ _ _ _ _ _ Hforced He) as Hcat.
  pose proof (category_of_cases (runtime r)) as Hc.
  rewrite Hrt, Hr in Hcat, Hc. rewrite Hl in Hc. rewrite Hc in Hcat.
  assert (type r ≠ UNSUPPORTED) as Htype.
  { destruct (runtimeLookup_values _ _ Hl) as [-> | ->].
    - rewrite decide_True in Hcat by done.
      destruct Hcat as [->|[->| ->]]; discriminate.
    - rewrite decide_False in Hcat by discriminate. rewrite Hcat. discriminate. }
  rewrite <-Hh.
  eapply applyLayers_merged_have_layer; eauto.
  - apply list_elem_of_omap. by exists (name, h).
  - by rewrite Hrt.
Qed.

Lemma X19_witness :
  ∃ l,
    layersOf
      (store_of
         (applyLayers Tests.no_reads "us-east-1"
            (findHandlers Tests.no_files Tests.store8 Tests.service8 None None)
            (Tests.table "us-east-1" "python3.7" "python:5") Tests.store8))
      5
    = Some l
    ∧ VString "python:5" ∈ l.
Proof.
  apply (X19_classify_then_merge Tests.no_files Tests.store8 Tests.service8 None None
           Tests.no_reads "us-east-1" (Tests.table "us-east-1" "python3.7" "python:5")
           {[ "python3.7" := Some "python:5" ]} "func-f" 5 "python3.7" "python:5").
  - intros d a H. discriminate H.
  - intros t H. discriminate H.
  - do 5 apply list_elem_of_further. apply list_elem_of_here.
  - reflexivity.
  - exists PYTHON. reflexivity.
  - intros H. discriminate H.
  - reflexivity.
  - reflexivity.
Defined.

(** ** getLayers, setLayers and the default runtime *)

(** X24. [getLayers] and [setLayers] fit together: writing back the array
    that [getLayers] returned leaves the function with the list it had, an
    absent field becoming the empty list; and reading after a write returns
    the array written, without making a new one. *)
Theorem X24_getLayers_setLayers info σ array :
  (let '(currentLayers, σ1) := getLayers info σ in
   layersOf (setLayers info currentLayers σ1) (handler info)
   = Some (default [] (layersOf σ (handler info))))
  ∧ getLayers info (setLayers info array σ) = (array, setLayers info array σ).
Proof.
  split.
  - unfold getLayers, layersOf.
    destruct (fd_layers (descriptors σ (handler info))) as [a|] eqn:Ha; simpl.
    + by do 3 (try rewrite fn_lookup_insert; simpl).
    + by do 3 (try rewrite fn_lookup_insert; simpl).
  - unfold getLayers. by do 3 (try rewrite fn_lookup_insert; simpl).
Qed.

(** X25. The default runtime only stands in for a missing one: when every
    declared function has a runtime of its own, the records do not depend
    on [defaultRuntime]. *)
Theorem X25_declared_runtime_wins
    existsSync σ service defaultRuntime defaultRuntime' defaultNodeRuntime :
  Forall (λ e, is_Some (fd_runtime (descriptors σ e.2))) (functions service) →
  findHandlers existsSync σ service defaultRuntime defaultNodeRuntime
  = findHandlers existsSync σ service defaultRuntime' defaultNodeRuntime.
Proof.
  intros Hall. unfold findHandlers. apply list_omap_ext, Forall2_same_length_lookup.
  split; [done|]. intros i [n h] e' H1 H2. rewrite H1 in H2. injection H2 as <-.
  rewrite list.Forall_forall in Hall.
  destruct (Hall (n, h)) as [rt Hrt]; [by eapply list_elem_of_lookup_2|].
  unfold findHandlers_entry. simpl in Hrt. by rewrite Hrt.
Qed.

Lemma X25_witness :
  findHandlers Tests.no_files Inputs.go (Inputs.svc None) None None
  = findHandlers Tests.no_files Inputs.go (Inputs.svc None) (Some "nodejs10.x") None.
Proof.
  apply (X25_declared_runtime_wins Tests.no_files Inputs.go (Inputs.svc None)
           None (Some "nodejs10.x") None).
  repeat constructor. by eexists.
Defined.

(** ** setEnvConfiguration and getConfig, further *)

Lemma env_get_set_same k v e :
  env_get (set_if_undefined k v e) k = filled v (env_get e k).
Proof.
  unfold set_if_undefined, filled. case_decide as H; [|done].
  unfold env_get. by rewrite lookup_insert_eq.
Qed.

Lemma env_get_set_other k v e k' :
  k' ≠ k → env_get (set_if_undefined k v e) k' = env_get e k'.
Proof.
  intros H. unfold env_get. rewrite set_if_undefined_lookup; [done|by left].
Qed.

Lemma set_if_undefined_defined k v e :
  env_get e k ≠ VUndefined → set_if_undefined k v e = e.
Proof. unfold set_if_undefined. intros H. by rewrite decide_False. Qed.

Lemma filled_defined v old : v ≠ VUndefined → filled v old ≠ VUndefined.
Proof. unfold filled. by case_decide. Qed.

Lemma setEnvConfiguration_fill config service :
  setEnvConfiguration config service
  = {| functions := functions service;
       plugins := plugins service;
       provider := {| environment := Some (fill_defaults config (env_of service)) |} |}.
Proof.
  unfold setEnvConfiguration, fill_defaults, env_of.
  by destruct (environment (provider service)).
Qed.

(** What the five variables read after the assignments. *)
Lemma fill_defaults_values config e :
  env_get (fill_defaults config e) siteURLEnvVar
  = filled (VString (site config)) (env_get e siteURLEnvVar)
  ∧ env_get (fill_defaults config e) logLevelEnvVar
    = filled (VString (logLevel config)) (env_get e logLevelEnvVar)
  ∧ env_get (fill_defaults config e) logForwardingEnvVar
    = filled (VBoolean (flushMetricsToLogs config)) (env_get e logForwardingEnvVar)
  ∧ env_get (fill_defaults config e) apiKeyEnvVar
    = match apiKey config with
      | Some apiKey => filled (VString apiKey) (env_get e apiKeyEnvVar)
      | None => env_get e apiKeyEnvVar
      end
  ∧ env_get (fill_defaults config e) apiKeyKMSEnvVar
    = match apiKMSKey config with
      | Some apiKMSKey => filled (VString apiKMSKey) (env_get e apiKeyKMSEnvVar)
      | None => env_get e apiKeyKMSEnvVar
      end.
Proof.
  unfold fill_defaults.
  destruct (apiKey config), (apiKMSKey config); split_and!;
    by repeat first
      [ rewrite env_get_set_same
      | rewrite env_get_set_other
          by (unfold apiKeyEnvVar, apiKeyKMSEnvVar, siteURLEnvVar, logLevelEnvVar,
                logForwardingEnvVar; discriminate) ].
Qed.

(** X20. What [setEnvConfiguration] leaves in the five variables: the value
    already there if it is defined, else the configuration's value;
    [DD_API_KEY] and [DD_KMS_API_KEY] stay as they are when the
    configuration has no key. *)
Theorem X20_setEnvConfiguration_values config service :
  let before := env_get (env_of service) in
  let after := env_get (env_of (setEnvConfiguration config service)) in
  after siteURLEnvVar = filled (VString (site config)) (before siteURLEnvVar)
  ∧ after logLevelEnvVar = filled (VString (logLevel config)) (before logLevelEnvVar)
  ∧ after logForwardingEnvVar
    = filled (VBoolean (flushMetricsToLogs config)) (before logForwardingEnvVar)
  ∧ after apiKeyEnvVar
    = match apiKey config with
      | Some apiKey => filled (VString apiKey) (before apiKeyEnvVar)
      | None => before apiKeyEnvVar
      end
  ∧ after apiKeyKMSEnvVar
    = match apiKMSKey config with
      | Some apiKMSKey => filled (VString apiKMSKey) (before apiKeyKMSEnvVar)
      | None => before apiKeyKMSEnvVar
      end.
Proof.
  cbv zeta. rewrite setEnvConfiguration_fill. apply fill_defaults_values.
Qed.

Lemma fill_defaults_idem config e :
  fill_defaults config (fill_defaults config e) = fill_defaults config e.
Proof.
  destruct (fill_defaults_values config e) as (Hs & Hl & Hf & Hk & Hm).
  set (e' := fill_defaults config e) in *. unfold fill_defaults at 1.
  assert (match apiKey config with
          | Some apiKey => set_if_undefined apiKeyEnvVar (VString apiKey) e'
          | None => e' end = e') as ->.
  { destruct (apiKey config); [|done]. apply set_if_undefined_defined.
    rewrite Hk. by apply filled_defined. }
  assert (match apiKMSKey config with
          | Some apiKMSKey => set_if_undefined apiKeyKMSEnvVar (VString apiKMSKey) e'
          | None => e' end = e') as ->.
  { destruct (apiKMSKey config); [|done]. apply set_if_undefined_defined.
    rewrite Hm. by apply filled_defined. }
  rewrite (set_if_undefined_defined siteURLEnvVar)
    by (rewrite Hs; by apply filled_defined).
  rewrite (set_if_undefined_defined logLevelEnvVar)
    by (rewrite Hl; by apply filled_defined).
  apply set_if_undefined_defined. rewrite Hf. by apply filled_defined.
Qed.

(** X21. [setEnvConfiguration] is idempotent: a second call with the same
    configuration leaves the service as the first call left it. *)
Theorem X21_setEnvConfiguration_idempotent config service :
  setEnvConfiguration config (setEnvConfiguration config service)
  = setEnvConfiguration config service.
Proof.
  rewrite !setEnvConfiguration_fill. simpl. unfold env_of at 1. simpl.
  by rewrite fill_defaults_idem.
Qed.

Lemma set_if_undefined_dom k v (e : gmap string value) :
  dom e ⊆ dom (set_if_undefined k v e)
  ∧ dom (set_if_undefined k v e) ⊆ dom e ∪ {[k]}.
Proof.
  unfold set_if_undefined. case_decide.
  - rewrite dom_insert_L. split; [apply union_subseteq_r|].
    intros x [Hx|Hx]%elem_of_union; apply elem_of_union; auto.
  - split; [done|apply union_subseteq_l].
Qed.

(** X22. [setEnvConfiguration] removes no environment key and adds none but
    the five variables. *)
Theorem X22_setEnvConfiguration_keys config service :
  dom (env_of service) ⊆ dom (env_of (setEnvConfiguration config service))
  ∧ dom (env_of (setEnvConfiguration config service))
    ⊆ dom (env_of service) ∪ list_to_set envVars.
Proof.
  rewrite setEnvConfiguration_fill. unfold env_of at 2 4. simpl.
  generalize (env_of service). intros e. unfold fill_defaults.
  set (e1 := match apiKey config with
             | Some apiKey => set_if_undefined apiKeyEnvVar (VString apiKey) e
             | None => e end).
  assert (dom e ⊆ dom e1 ∧ dom e1 ⊆ dom e ∪ {[apiKeyEnvVar]}) as [A1 B1].
  { subst e1. destruct (apiKey config); [apply set_if_undefined_dom|].
    split; [done|apply union_subseteq_l]. }
  clearbody e1.
  set (e2 := match apiKMSKey config with
             | Some apiKMSKey => set_if_undefined apiKeyKMSEnvVar (VString apiKMSKey) e1
             | None => e1 end).
  assert (dom e1 ⊆ dom e2 ∧ dom e2 ⊆ dom e1 ∪ {[apiKeyKMSEnvVar]}) as [A2 B2].
  { subst e2. destruct (apiKMSKey config); [apply set_if_undefined_dom|].
    split; [done|apply union_subseteq_l]. }
  clearbody e2.
  pose proof (set_if_undefined_dom siteURLEnvVar (VString (site config)) e2) as [A3 B3].
  set (e3 := set_if_undefined siteURLEnvVar (VString (site config)) e2) in *.
  clearbody e3.
  pose proof (set_if_undefined_dom logLevelEnvVar (VString (logLevel config)) e3)
    as [A4 B4].
  set (e4 := set_if_undefined logLevelEnvVar (VString (logLevel config)) e3) in *.
  clearbody e4.
  pose proof (set_if_undefined_dom logForwardingEnvVar
                (VBoolean (flushMetricsToLogs config)) e4) as [A5 B5].
  set (e5 := set_if_undefined logForwardingEnvVar
               (VBoolean (flushMetricsToLogs config)) e4) in *.
  clearbody e5. unfold envVars.
  revert A1 B1 A2 B2 A3 B3 A4 B4 A5 B5.
  generalize apiKeyEnvVar, apiKeyKMSEnvVar, siteURLEnvVar, logLevelEnvVar,
    logForwardingEnvVar.
  intros k1 k2 k3 k4 k5 A1 B1 A2 B2 A3 B3 A4 B4 A5 B5.
  split.
  { etrans; [exact A1|]. etrans; [exact A2|]. etrans; [exact A3|].
    etrans; [exact A4|]. exact A5. }
  intros k Hk. apply elem_of_union. rewrite !elem_of_union, !elem_of_singleton.
  apply B5, elem_of_union in Hk as [Hk|Hk%elem_of_singleton]; [|tauto].
  apply B4, elem_of_union in Hk as [Hk|Hk%elem_of_singleton]; [|tauto].
  apply B3, elem_of_union in Hk as [Hk|Hk%elem_of_singleton]; [|tauto].
  apply B2, elem_of_union in Hk as [Hk|Hk%elem_of_singleton]; [|tauto].
  apply B1, elem_of_union in Hk as [Hk|Hk%elem_of_singleton]; tauto.
Qed.

Lemma env_of_fill fs ps e :
  env_of {| functions := fs; plugins := ps; provider := {| environment := Some e |} |} = e.
Proof. reflexivity. Qed.

(** The object [getConfig] returns, property by property. *)
Lemma getConfig_fields custom :
  s_site (getConfig custom) = default (Some "datadoghq.com") (given custom p_site)
  ∧ s_logLevel (getConfig custom) = default (Some "info") (given custom p_logLevel)
  ∧ s_flushMetricsToLogs (getConfig custom)
    = default (Some false) (given custom p_flushMetricsToLogs)
  ∧ s_apiKey (getConfig custom) = mjoin (given custom p_apiKey)
  ∧ s_apiKMSKey (getConfig custom) = mjoin (given custom p_apiKMSKey).
Proof.
  unfold given, getConfig, spread.
  destruct custom as [[[d|]]|]; simpl; split_and!; try done; by case_match.
Qed.

Lemma as_Configuration_fields c config :
  as_Configuration c = Some config →
  s_site c = Some (site config)
  ∧ s_logLevel c = Some (logLevel config)
  ∧ s_flushMetricsToLogs c = Some (flushMetricsToLogs config)
  ∧ s_apiKey c = apiKey config
  ∧ s_apiKMSKey c = apiKMSKey config.
Proof.
  unfold as_Configuration.
  destruct (s_addLayers c), (s_site c), (s_logLevel c), (s_flushMetricsToLogs c);
    try done.
  by intros [= <-].
Qed.

Lemma default_Some_mjoin {A} (d x : A) (g : option (option A)) :
  default (Some d) g = Some x → default d (mjoin g) = x.
Proof. destruct g as [[y|]|]; simpl; congruence. Qed.

(** X23. Where a variable's value comes from when the configuration is read
    with [getConfig] and the object read is the [Configuration] it is
    declared to be (so [custom.datadog] holds none of the four required
    properties as [undefined]): the provider's environment first, then
    [custom.datadog], then the default ([datadoghq.com], [info], [false]);
    there is no default API key. *)
Theorem X23_getConfig_then_setEnvConfiguration custom service config :
  as_Configuration (getConfig custom) = Some config →
  let before := env_get (env_of service) in
  let after := env_get (env_of (setEnvConfiguration config service)) in
  after siteURLEnvVar
  = filled (VString (default "datadoghq.com" (mjoin (given custom p_site))))
      (before siteURLEnvVar)
  ∧ after logLevelEnvVar
    = filled (VString (default "info" (mjoin (given custom p_logLevel))))
        (before logLevelEnvVar)
  ∧ after logForwardingEnvVar
    = filled (VBoolean (default false (mjoin (given custom p_flushMetricsToLogs))))
        (before logForwardingEnvVar)
  ∧ after apiKeyEnvVar
    = match mjoin (given custom p_apiKey) with
      | Some apiKey => filled (VString apiKey) (before apiKeyEnvVar)
      | None => before apiKeyEnvVar
      end
  ∧ after apiKeyKMSEnvVar
    = match mjoin (given custom p_apiKMSKey) with
      | Some apiKMSKey => filled (VString apiKMSKey) (before apiKeyKMSEnvVar)
      | None => before apiKeyKMSEnvVar
      end.
Proof.
  intros Hc. cbv zeta. rewrite setEnvConfiguration_fill, env_of_fill.
  destruct (fill_defaults_values config (env_of service))
    as (Hs & Hl & Hf & Hk & Hm).
  destruct (getConfig_fields custom) as (Gs & Gl & Gf & Gk & Gm).
  destruct (as_Configuration_fields _ _ Hc) as (As & Al & Af & Ak & Am).
  rewrite As in Gs. rewrite Al in Gl. rewrite Af in Gf. rewrite Ak in Gk. rewrite Am in Gm.
  symmetry in Gs, Gl, Gf.
  rewrite Hs, Hl, Hf, Hk, Hm, <-Gk, <-Gm.
  by rewrite (default_Some_mjoin _ _ _ Gs), (default_Some_mjoin _ _ _ Gl),
    (default_Some_mjoin _ _ _ Gf).
Qed.

Lemma X23_witness :
  env_get (env_of (setEnvConfiguration
                     {| addLayers := true; apiKey := None; apiKMSKey := None;
                        site := "datadoghq.eu"; logLevel := "info";
                        flushMetricsToLogs := false; nodeModuleType := None |}
                     (Inputs.svc None)))
    siteURLEnvVar
  = VString "datadoghq.eu".
Proof.
  refine (eq_trans
    (proj1 (X23_getConfig_then_setEnvConfiguration (Some Inputs.custom_eu)
              (Inputs.svc None) _ _))
    eq_refl).
  reflexivity.
Defined.
